(** * split-enriched-python: the chunk splitter, embedded and verified

    The script [scripts/split-enriched-python.py] reads one JSON document,
    separates the ['artists'] mapping from the other top-level keys and
    writes the artists back in files of [CHUNK_SIZE] entries each.

    The embedding follows the script line by line.  Python values are an
    inductive type, a [dict] is an association list in insertion order,
    the file system is a finite map from paths to nodes, and [main] runs
    in a monad that threads the file system, collects the I/O events of
    the run and stops at the first exception raised. *)

From Stdlib Require Import ZArith String Ascii List QArith DecimalString DecimalN.
From Stdlib Require Import Floats.SpecFloat.
From stdpp Require Import base tactics option list gmap strings.

Local Open Scope string_scope.
Local Open Scope list_scope.
Local Open Scope Z_scope.

Set Warnings "-register-all".

(** ** Python values, as [json.load] builds them *)

Inductive pyval : Type :=
| PNone
| PBool (b : bool)
| PInt (n : Z)
| PFloat (x : spec_float)
| PStr (s : string)
| PList (xs : list pyval)
| PDict (d : list (string * pyval)).

(** A [dict] keeps its entries in insertion order. *)
Abbreviation dict := (list (string * pyval)).

Fixpoint dict_get (d : dict) (k : string) : option pyval :=
  match d with
  | [] => None
  | (k', v) :: d' => if String.eqb k' k then Some v else dict_get d' k
  end.

(** [d[k] = v]: an existing key keeps its place and takes the new value,
    a new key goes to the end. *)
Fixpoint dict_set (d : dict) (k : string) (v : pyval) : dict :=
  match d with
  | [] => [(k, v)]
  | (k', v') :: d' =>
      if String.eqb k' k then (k', v) :: d' else (k', v') :: dict_set d' k v
  end.

(** [dict(items)] and the dict comprehension: one [dict_set] per pair. *)
Definition dict_of_items (items : list (string * pyval)) : dict :=
  fold_left (fun d kv => dict_set d kv.1 kv.2) items [].

(** [{**base, k1: v1, ...}]: a copy of [base], then the listed keys in order. *)
Definition dict_display (base : dict) (more : list (string * pyval)) : dict :=
  fold_left (fun d kv => dict_set d kv.1 kv.2) more base.

Definition len {A} (l : list A) : Z := Z.of_nat (length l).

(** [l[lo:hi]] with Python's treatment of negative and oversized bounds. *)
Definition clamp_index (n i : Z) : Z :=
  if i <? 0 then Z.max (i + n) 0 else Z.min i n.

Definition slice {A} (l : list A) (lo hi : Z) : list A :=
  let lo' := clamp_index (len l) lo in
  let hi' := clamp_index (len l) hi in
  take (Z.to_nat (hi' - lo')) (drop (Z.to_nat lo') l).

(** ** Exceptions and the run monad *)

Inductive exn : Type :=
| SystemExit (code : Z)
| KeyError (key : string)
| AttributeError
| ValueError
| ZeroDivisionError
| FileNotFoundError
| FileExistsError
| NotADirectoryError
| IsADirectoryError.

Inductive result (A : Type) : Type :=
| Ok (a : A)
| Raise (e : exn).
Arguments Ok {A} a.
Arguments Raise {A} e.

Inductive node : Type :=
| Dir
| File (content : string).

#[global] Instance node_eq_dec : EqDecision node.
Proof. solve_decision. Defined.

(** The lines the script prints, with the values it interpolates. *)
Inductive line : Type :=
| LStarting
| LNotFound (path : string)
| LOutputReady (path : string)
| LReading (path : string)
| LMayTake
| LTotalArtists (n : Z)
| LChunkSize (n : Z)
| LCreating (n : Z)
| LChunkDone (index count : Z) (progress : Q)
| LSplitComplete
| LCreated (n : Z) (path : string)
| LTotalArtistsEnd (n : Z)
| LNextStep.

Inductive event : Type :=
| Print (l : line)
| Makedirs (path : string)
| Dump (path : string) (obj : pyval).

Record run (A : Type) : Type := mkRun {
  res : result A;
  disk : gmap string node;
  trace : list event
}.
Arguments mkRun {A} res disk trace.
Arguments res {A} r.
Arguments disk {A} r.
Arguments trace {A} r.

Definition M (A : Type) : Type := gmap string node -> run A.

Definition ret {A} (a : A) : M A := fun fs => mkRun (Ok a) fs [].

Definition raise {A} (e : exn) : M A := fun fs => mkRun (Raise e) fs [].

Definition bind {A B} (m : M A) (f : A -> M B) : M B := fun fs =>
  let r := m fs in
  match res r with
  | Ok a => let r' := f a (disk r) in
            mkRun (res r') (disk r') (trace r ++ trace r')
  | Raise e => mkRun (Raise e) (disk r) (trace r)
  end.

#[global] Instance M_ret : MRet M := @ret.
#[global] Instance M_bind : MBind M := fun A B f m => bind m f.

Definition lift {A} (e : exn) (o : option A) : M A :=
  match o with
  | Some a => ret a
  | None => raise e
  end.

(** [for x in xs: s = body(x, s)] *)
Fixpoint for_each {A S} (xs : list A) (body : A -> S -> M S) (s : S) : M S :=
  match xs with
  | [] => ret s
  | x :: xs' => s' ← body x s; for_each xs' body s'
  end.

(** ** Builtins the script calls *)

Definition print (l : line) : M unit := fun fs => mkRun (Ok tt) fs [Print l].

Definition sys_exit {A} (code : Z) : M A := raise (SystemExit code).

(** [range(start, stop, step)] for a positive step, by iteration. *)
Fixpoint range_from (fuel : nat) (i stop step : Z) : list Z :=
  match fuel with
  | O => []
  | S fuel' =>
      if i <? stop then i :: range_from fuel' (i + step) stop step else []
  end.

Definition range (start stop step : Z) : list Z :=
  range_from (Z.to_nat (stop - start)) start stop step.

(** [x.items()]: only a dict has the method. *)
Definition items (v : pyval) : M (list (string * pyval)) :=
  match v with
  | PDict d => ret d
  | _ => raise AttributeError
  end.

(** [d[k]] on a dict. *)
Definition getitem (d : dict) (k : string) : M pyval :=
  lift (KeyError k) (dict_get d k).

(** [a / b] on ints.  The quotient is kept exact; the script rounds it to
    a float, which only shows in the printed text. *)
Definition true_div (a b : Z) : M Q :=
  if b =? 0 then raise ZeroDivisionError
  else ret (Qdiv (inject_Z a) (inject_Z b)).

(** [f'{n:02d}']: decimal digits, zero-filled after the sign to a width
    of at least two. *)
Definition decimal (n : Z) : string :=
  NilZero.string_of_uint (N.to_uint (Z.to_N n)).

Fixpoint zeros (n : nat) : string :=
  match n with
  | O => ""
  | S n' => String "0" (zeros n')
  end.

Definition zfill (width : nat) (s : string) : string :=
  zeros (width - String.length s) +:+ s.

Definition format_02d (n : Z) : string :=
  if n <? 0 then "-" +:+ zfill 1 (decimal (- n)) else zfill 2 (decimal n).

(** [os.path.join(a, b)] on POSIX. *)
Fixpoint ends_with_slash (s : string) : bool :=
  match s with
  | "" => false
  | String c "" => Ascii.eqb c "/"
  | String _ s' => ends_with_slash s'
  end.

Definition os_path_join (a b : string) : string :=
  if String.prefix "/" b then b
  else if (String.eqb a "" || ends_with_slash a)%bool then a +:+ b
  else a +:+ "/" +:+ b.

Definition os_path_exists (path : string) : M bool := fun fs =>
  mkRun (Ok (bool_decide (is_Some (fs !! path)))) fs [].

(** The directories [os.makedirs] visits: every prefix of the path that
    ends before a slash, then the path itself. *)
Fixpoint path_prefixes_from (done rest : string) : list string :=
  match rest with
  | "" => [done]
  | String c rest' =>
      if Ascii.eqb c "/"
      then done :: path_prefixes_from (done +:+ "/") rest'
      else path_prefixes_from (done +:+ String c "") rest'
  end.

Definition path_prefixes (path : string) : list string :=
  filter (fun p => p <> "") (path_prefixes_from "" path).

(** One level of [os.makedirs(..., exist_ok=True)]: a directory already
    there is kept, a missing one is created, a file in the way is an
    error ([FileExistsError] at the leaf, [NotADirectoryError] above it). *)
Definition mkdir_exist_ok (leaf : string) (p : string) (_ : unit) : M unit :=
  fun fs =>
    match fs !! p with
    | None => mkRun (Ok tt) (<[p := Dir]> fs) []
    | Some Dir => mkRun (Ok tt) fs []
    | Some (File _) =>
        mkRun (Raise (if String.eqb p leaf then FileExistsError
                      else NotADirectoryError)) fs []
    end.

Definition os_makedirs (path : string) : M unit :=
  (fun fs => mkRun (Ok tt) fs [Makedirs path]);;
  for_each (path_prefixes path) (mkdir_exist_ok path) tt.

(** [open(path, 'r', encoding='utf-8')] and [f.read()]. *)
Definition read_text (path : string) : M string := fun fs =>
  match fs !! path with
  | Some (File content) => mkRun (Ok content) fs []
  | Some Dir => mkRun (Raise IsADirectoryError) fs []
  | None => mkRun (Raise FileNotFoundError) fs []
  end.

(** ** The script *)

Definition CHUNK_SIZE : Z := 60000.
Definition INPUT_FILE : string :=
  "client/data/musicbrainz-artists-enriched.json".
Definition OUTPUT_DIR : string :=
  "client/data/musicbrainz-enriched-chunks".

Definition output_file (chunk_index : Z) : string :=
  os_path_join OUTPUT_DIR ("chunk-" +:+ format_02d chunk_index +:+ ".json").

(** Lines 44-50. *)
Definition chunk_data (metadata : dict) (chunk_index : Z)
    (chunk_artists : dict) (total_artists : Z) : dict :=
  dict_display metadata
    [("chunk_index", PInt chunk_index);
     ("chunk_artist_count", PInt (len chunk_artists));
     ("total_artist_count", PInt total_artists);
     ("artists", PDict chunk_artists)].

Section Script.

(** The [json] module: [json.loads] on the text of the file ([None] when
    the text does not decode) and [json.dumps(obj, indent=...)]. *)
Variable json_load : string -> option pyval.
Variable json_dump : pyval -> Z -> string.

(** [with open(path, 'w') as f: json.dump(obj, f, indent=indent)].  The
    directory of [path] was made by [os_makedirs] before the first call. *)
Definition dump_to (path : string) (obj : pyval) (indent : Z) : M unit :=
  fun fs =>
    match fs !! path with
    | Some Dir => mkRun (Raise IsADirectoryError) fs []
    | _ => mkRun (Ok tt) (<[path := File (json_dump obj indent)]> fs)
                 [Dump path obj]
    end.

(** Lines 42-58: one turn of the loop, from [chunk_index] to the next. *)
Definition loop_body (metadata : dict) (artist_items : list (string * pyval))
    (total_artists : Z) (i : Z) (chunk_index : Z) : M Z :=
  let chunk_artists := dict_of_items (slice artist_items i (i + CHUNK_SIZE)) in
  let chunk := chunk_data metadata chunk_index chunk_artists total_artists in
  dump_to (output_file chunk_index) (PDict chunk) 2;;
  ratio ← true_div (i + len chunk_artists) total_artists;
  let progress := Qmult ratio (inject_Z 100) in
  print (LChunkDone chunk_index (len chunk_artists) progress);;
  ret (chunk_index + 1).

Definition main : M unit :=
  print LStarting;;
  found ← os_path_exists INPUT_FILE;
  (if negb found
   then print (LNotFound INPUT_FILE);; sys_exit 1
   else ret tt);;
  os_makedirs OUTPUT_DIR;;
  print (LOutputReady OUTPUT_DIR);;
  print (LReading INPUT_FILE);;
  print LMayTake;;
  text ← read_text INPUT_FILE;
  data ← lift ValueError (json_load text);
  data_items ← items data;
  let metadata :=
    dict_of_items (filter (fun kv => kv.1 <> "artists") data_items) in
  artists ← getitem data_items "artists";
  artist_items ← items artists;
  let total_artists := len artist_items in
  print (LTotalArtists total_artists);;
  print (LChunkSize CHUNK_SIZE);;
  print (LCreating ((total_artists + CHUNK_SIZE - 1) / CHUNK_SIZE));;
  chunk_index ←
    for_each (range 0 (len artist_items) CHUNK_SIZE)
      (loop_body metadata artist_items total_artists) 0;
  print LSplitComplete;;
  print (LCreated chunk_index OUTPUT_DIR);;
  print (LTotalArtistsEnd total_artists);;
  print LNextStep.

End Script.

(** The exit status of the process that runs [main] as a script. *)
Definition exit_status (r : result unit) : Z :=
  match r with
  | Ok _ => 0
  | Raise (SystemExit code) => code
  | Raise _ => 1
  end.

(** What a run wrote, in order: the path and the object of every dump. *)
Definition dumped (tr : list event) : list (string * pyval) :=
  omap (fun e => match e with Dump p o => Some (p, o) | _ => None end) tr.

(** ** Reading back what a run wrote *)

(** [obj[k]] for a chunk object. *)
Definition field (obj : pyval) (k : string) : option pyval :=
  match obj with
  | PDict d => dict_get d k
  | _ => None
  end.

(** The entries of [obj['artists']]. *)
Definition artists_of (obj : pyval) : dict :=
  match field obj "artists" with
  | Some (PDict a) => a
  | _ => []
  end.

(** The chunk the loop builds on its turn number [j] (from 0). *)
Definition nth_chunk (metadata : dict) (artist_items : dict) (j : nat) : dict :=
  let i := Z.of_nat j * CHUNK_SIZE in
  chunk_data metadata (Z.of_nat j)
    (dict_of_items (slice artist_items i (i + CHUNK_SIZE))) (len artist_items).

(** The number of turns of the loop over [n] items. *)
Definition turns (n : Z) : nat := Z.to_nat ((n + CHUNK_SIZE - 1) / CHUNK_SIZE).

(** The metadata of a document, line 31. *)
Definition metadata_of (data_items : dict) : dict :=
  dict_of_items (filter (fun kv => kv.1 <> "artists") data_items).

(** ** The file system around a run *)

(** [os.makedirs] at one level: a missing directory appears. *)
Definition ensure_dir (fs : gmap string node) (p : string) : gmap string node :=
  match fs !! p with
  | None => <[p := Dir]> fs
  | Some _ => fs
  end.

Definition with_dirs (fs : gmap string node) (path : string) : gmap string node :=
  foldl ensure_dir fs (path_prefixes path).

Definition not_file (fs : gmap string node) (p : string) : Prop :=
  forall content, fs !! p <> Some (File content).

Definition not_dir (fs : gmap string node) (p : string) : Prop :=
  fs !! p <> Some Dir.

(** Nothing is in the way of the output: no file where [OUTPUT_DIR] or a
    directory above it goes, no directory where a chunk file goes. *)
Definition unobstructed (fs : gmap string node) : Prop :=
  (forall p, p ∈ path_prefixes OUTPUT_DIR -> not_file fs p) /\
  (forall k, not_dir fs (output_file k)).

(** ** What a run is expected to do *)

(** The events of turn [j] of the loop. *)
Definition turn_events (metadata artist_items : dict) (j : nat) : list event :=
  let i := Z.of_nat j * CHUNK_SIZE in
  let chunk_artists := dict_of_items (slice artist_items i (i + CHUNK_SIZE)) in
  let ratio := Qdiv (inject_Z (i + len chunk_artists))
                    (inject_Z (len artist_items)) in
  [Dump (output_file (Z.of_nat j)) (PDict (nth_chunk metadata artist_items j));
   Print (LChunkDone (Z.of_nat j) (len chunk_artists)
            (Qmult ratio (inject_Z 100)))].

(** The events before the loop and after it. *)
Definition prologue_events (total_artists : Z) : list event :=
  [Print LStarting; Makedirs OUTPUT_DIR; Print (LOutputReady OUTPUT_DIR);
   Print (LReading INPUT_FILE); Print LMayTake;
   Print (LTotalArtists total_artists); Print (LChunkSize CHUNK_SIZE);
   Print (LCreating ((total_artists + CHUNK_SIZE - 1) / CHUNK_SIZE))].

Definition epilogue_events (chunk_index total_artists : Z) : list event :=
  [Print LSplitComplete; Print (LCreated chunk_index OUTPUT_DIR);
   Print (LTotalArtistsEnd total_artists); Print LNextStep].

(** A run with more events before it. *)
Definition prepend {A} (t : list event) (r : run A) : run A :=
  mkRun (res r) (disk r) (t ++ trace r).

(** The disk after turn [j] of the loop. *)
Definition write_chunk (json_dump : pyval -> Z -> string)
    (metadata artist_items : dict) (fs : gmap string node) (j : nat)
    : gmap string node :=
  <[output_file (Z.of_nat j) :=
      File (json_dump (PDict (nth_chunk metadata artist_items j)) 2)]> fs.

(** The start indices [range] gives the loop, from turn [a] on. *)
Definition starts (a m : nat) : list Z :=
  (fun j : nat => Z.of_nat j * CHUNK_SIZE) <$> seq a m.

(** Lines 60-63. *)
Definition epilogue (total_artists chunk_index : Z) : M unit :=
  print LSplitComplete;;
  print (LCreated chunk_index OUTPUT_DIR);;
  print (LTotalArtistsEnd total_artists);;
  print LNextStep.

(** ** Valid inputs *)

(** The keys of a dict are distinct. *)
Definition is_dict (d : dict) : Prop := NoDup d.*1.

(** The input file is there and decodes to the dict [d], whose
    ['artists'] entry is the dict [artists]. *)
Definition loads (json_load : string -> option pyval)
    (fs : gmap string node) (d artists : dict) : Prop :=
  exists text,
    fs !! INPUT_FILE = Some (File text) /\
    json_load text = Some (PDict d) /\
    dict_get d "artists" = Some (PDict artists).

(** The chunks a complete run writes for the document [d]. *)
Definition chunks_of (d artists : dict) (m : nat) : list (string * pyval) :=
  (fun j => (output_file (Z.of_nat j),
             PDict (nth_chunk (metadata_of d) artists j))) <$> seq 0 m.

(** ** A small world to run the script in *)

(** A plain rendering of a value, standing in for [json.dumps]. *)
Fixpoint render (v : pyval) : string :=
  match v with
  | PNone => "null"
  | PBool true => "true"
  | PBool false => "false"
  | PInt n => if n <? 0 then "-" +:+ decimal (- n) else decimal n
  | PFloat _ => "float"
  | PStr s => "'" +:+ s +:+ "'"
  | PList xs =>
      "[" +:+ (fix go (l : list pyval) : string :=
                 match l with
                 | [] => ""
                 | x :: l' => render x +:+ "," +:+ go l'
                 end) xs +:+ "]"
  | PDict d =>
      "{" +:+ (fix go (l : list (string * pyval)) : string :=
                 match l with
                 | [] => ""
                 | (k, x) :: l' => "'" +:+ k +:+ "':" +:+ render x +:+ "," +:+ go l'
                 end) d +:+ "}"
  end.

Definition sample_dump (obj : pyval) (indent : Z) : string := render obj.

(** A disk that holds only the input file, and a decoder that knows one
    text. *)
Definition disk_with (text : string) : gmap string node :=
  {[ INPUT_FILE := File text ]}.

Definition load_as (text : string) (doc : pyval) (s : string) : option pyval :=
  if String.eqb s text then Some doc else None.

Definition sample_artists : dict :=
  [("a1", PDict [("name", PStr "Ada")]); ("a2", PNone); ("a3", PInt 7)].

Definition sample_items : dict :=
  [("version", PInt 3); ("artists", PDict sample_artists);
   ("source", PStr "musicbrainz")].

Definition sample_load : string -> option pyval :=
  load_as "sample" (PDict sample_items).

Definition sample_fs : gmap string node := disk_with "sample".

(** A computation that never raises [ZeroDivisionError]. *)
Definition no_zde {A} (m : M A) : Prop :=
  forall fs, res (m fs) <> Raise ZeroDivisionError.

(** ** File names, as the specification words them *)

(** The two decimal digits of an index below 100. *)
Definition digit (n : Z) : ascii := ascii_of_nat (48 + Z.to_nat n).

Definition two_digits (k : Z) : string :=
  String (digit (k / 10)) (String (digit (k mod 10)) "").

(** ** More small worlds *)

(** A document whose metadata uses the name of a counter. *)
Definition clash_items : dict :=
  [("chunk_index", PStr "x"); ("artists", PDict [("a1", PNone)])].

Definition clash_load : string -> option pyval :=
  load_as "clash" (PDict clash_items).

Definition clash_fs : gmap string node := disk_with "clash".

(** A document with 6,000,001 artists, enough for a chunk of index 100. *)
Definition many_artists : dict :=
  (fun i : nat => (decimal (Z.of_nat i), PNone)) <$> seq 0 (Z.to_nat 6000001).

Definition many_items : dict := [("artists", PDict many_artists)].

Definition many_load : string -> option pyval :=
  load_as "many" (PDict many_items).

Definition many_fs : gmap string node := disk_with "many".

(** A document with no artists. *)
Definition empty_items : dict := [("version", PInt 3); ("artists", PDict [])].

Definition empty_load : string -> option pyval :=
  load_as "empty" (PDict empty_items).

Definition empty_fs : gmap string node := disk_with "empty".

(** ** What a computation can raise and what it leaves alone *)

(** Every exception [m] can raise satisfies [P]. *)
Definition only {A} (P : exn -> Prop) (m : M A) : Prop :=
  forall fs e, res (m fs) = Raise e -> P e.

(** [m] leaves the node at path [q] as it finds it. *)
Definition keeps {A} (q : string) (m : M A) : Prop :=
  forall fs, disk (m fs) !! q = fs !! q.


(** The progress figures a run prints, in order. *)
Definition progress_of (tr : list event) : list Q :=
  omap (fun e => match e with
                 | Print (LChunkDone _ _ q) => Some q
                 | _ => None
                 end) tr.

(** The run [r] from the disk [fs] stops on the exception [e] once the
    output directory is made and before any chunk is written. *)
Definition stops_after_makedirs (r : run unit) (fs : gmap string node)
    (e : exn) : Prop :=
  res r = Raise e /\
  dumped (trace r) = [] /\
  disk r = with_dirs fs OUTPUT_DIR /\
  disk r !! OUTPUT_DIR = Some Dir.

(** Disks and decoders for the runs that fail. *)
Definition input_dir_fs : gmap string node := {[ INPUT_FILE := Dir ]}.

Definition blocked_output_fs : gmap string node :=
  <[ "client" := Dir ]>
    (<[ "client/data" := Dir ]>
       (<[ OUTPUT_DIR := File "not a directory" ]> sample_fs)).

Definition list_load : string -> option pyval := load_as "list" (PList [PInt 1]).

Definition no_artists_load : string -> option pyval :=
  load_as "no artists" (PDict [("version", PInt 3)]).

Definition artists_list_load : string -> option pyval :=
  load_as "artists list" (PDict [("artists", PList [PStr "a1"])]).

(** The disk of the document with 6,000,001 artists, with a directory
    where the second chunk file goes. *)
Definition blocked_chunk_fs : gmap string node :=
  <[ output_file 1 := Dir ]> many_fs.

(** [obj['chunk_artist_count']] as a number. *)
Definition count_of (obj : pyval) : Z :=
  match field obj "chunk_artist_count" with
  | Some (PInt n) => n
  | _ => 0
  end.

(** The progress figure of turn [j] of the loop. *)
Definition progress_at (artist_items : dict) (j : nat) : Q :=
  let i := Z.of_nat j * CHUNK_SIZE in
  let chunk_artists := dict_of_items (slice artist_items i (i + CHUNK_SIZE)) in
  Qmult (Qdiv (inject_Z (i + len chunk_artists)) (inject_Z (len artist_items)))
        (inject_Z 100).

(** * Verification *)

(** ** Running a computation *)

Lemma bind_ok {A B} (m : M A) (f : A -> M B) fs a fs1 t1 :
  m fs = mkRun (Ok a) fs1 t1 ->
  (m ≫= f) fs = mkRun (res (f a fs1)) (disk (f a fs1)) (t1 ++ trace (f a fs1)).
Proof. intros E. unfold mbind, M_bind, bind. by rewrite E. Qed.

Lemma bind_raise {A B} (m : M A) (f : A -> M B) fs e fs1 t1 :
  m fs = mkRun (Raise e) fs1 t1 ->
  (m ≫= f) fs = mkRun (Raise e) fs1 t1.
Proof. intros E. unfold mbind, M_bind, bind. by rewrite E. Qed.

Lemma run_eta {A} (r : run A) : r = mkRun (res r) (disk r) (trace r).
Proof. by destruct r. Qed.

Lemma res_bind {A B} (m : M A) (f : A -> M B) fs :
  res ((m ≫= f) fs) =
  match res (m fs) with
  | Ok a => res (f a (disk (m fs)))
  | Raise e => Raise e
  end.
Proof. unfold mbind, M_bind, bind. by destruct (res (m fs)). Qed.

Lemma trace_bind {A B} (m : M A) (f : A -> M B) fs :
  trace ((m ≫= f) fs) =
  match res (m fs) with
  | Ok a => trace (m fs) ++ trace (f a (disk (m fs)))
  | Raise e => trace (m fs)
  end.
Proof. unfold mbind, M_bind, bind. by destruct (res (m fs)). Qed.

(** ** Dicts *)

Lemma dict_get_set_eq (d : dict) k v : dict_get (dict_set d k v) k = Some v.
Proof.
  induction d as [|[k' v'] d IH]; simpl.
  - by rewrite String.eqb_refl.
  - destruct (String.eqb k' k) eqn:E; simpl; by rewrite E.
Qed.

Lemma dict_get_set_ne (d : dict) k k' v :
  k <> k' -> dict_get (dict_set d k v) k' = dict_get d k'.
Proof.
  intros Hne. induction d as [|[k0 v0] d IH]; simpl.
  - destruct (String.eqb k k') eqn:E; [|done].
    by apply String.eqb_eq in E.
  - destruct (String.eqb k0 k) eqn:E; simpl; [|by rewrite IH].
    apply String.eqb_eq in E as ->.
    destruct (String.eqb k k') eqn:E'; [|done].
    by apply String.eqb_eq in E'.
Qed.

Lemma dict_set_fresh (d : dict) k v :
  k ∉ d.*1 -> dict_set d k v = d ++ [(k, v)].
Proof.
  induction d as [|[k' v'] d IH]; simpl; [done|].
  intros Hk. apply not_elem_of_cons in Hk as [Hne Hk].
  destruct (String.eqb k' k) eqn:E.
  - apply String.eqb_eq in E. congruence.
  - by rewrite IH.
Qed.


Lemma fold_dict_set_fresh (items acc : dict) :
  NoDup (acc.*1 ++ items.*1) ->
  fold_left (fun d kv => dict_set d kv.1 kv.2) items acc = acc ++ items.
Proof.
  revert acc. induction items as [|[k v] items IH]; intros acc Hnd; simpl.
  - by rewrite app_nil_r.
  - rewrite dict_set_fresh.
    + rewrite IH; [by rewrite <- app_assoc|].
      rewrite fmap_app. simpl. by rewrite <- app_assoc.
    + simpl in Hnd. apply NoDup_app in Hnd as (_ & Hdis & _).
      intros Hin. apply (Hdis k Hin). by left.
Qed.

Lemma dict_of_items_NoDup (items : dict) :
  NoDup items.*1 -> dict_of_items items = items.
Proof. intros Hnd. unfold dict_of_items. by rewrite fold_dict_set_fresh. Qed.



Lemma dict_get_filter_ne (d : dict) k k' :
  k <> k' ->
  dict_get (filter (fun kv => kv.1 <> k) d) k' = dict_get d k'.
Proof.
  intros Hne. induction d as [|[k0 v0] d IH]; [done|].
  destruct (decide (k0 = k)) as [->|Hk].
  - rewrite filter_cons_False by (simpl; tauto). rewrite IH. simpl.
    destruct (String.eqb k k') eqn:E; [|done].
    by apply String.eqb_eq in E.
  - rewrite filter_cons_True by done. simpl. by rewrite IH.
Qed.

Lemma NoDup_keys_filter (P : string * pyval -> Prop) `{!forall x, Decision (P x)}
    (d : dict) :
  NoDup d.*1 -> NoDup (filter P d).*1.
Proof.
  intros Hnd. eapply sublist_NoDup; [exact Hnd|].
  apply fmap_sublist, sublist_filter.
Qed.

Lemma NoDup_keys_slice (d : dict) lo hi :
  NoDup d.*1 -> NoDup (slice d lo hi).*1.
Proof.
  intros Hnd. eapply sublist_NoDup; [exact Hnd|].
  apply fmap_sublist. unfold slice.
  etrans; [apply sublist_take|apply sublist_drop].
Qed.

(** ** Ranges and slices *)

Lemma range_from_spec (step : Z) (fuel : nat) (i stop : Z) :
  0 < step -> stop - i <= Z.of_nat fuel ->
  range_from fuel i stop step =
  (fun j : nat => i + Z.of_nat j * step) <$>
    seq 0 (Z.to_nat ((stop - i + step - 1) / step)).
Proof.
  intros Hstep. revert i. induction fuel as [|fuel IH]; intros i Hfuel.
  - simpl. replace (Z.to_nat _) with 0%nat; [done|].
    assert ((stop - i + step - 1) / step < 1); [|lia].
    apply Z.div_lt_upper_bound; lia.
  - simpl. destruct (Z.ltb_spec i stop) as [Hlt|Hge].
    + rewrite IH by lia.
      replace (stop - i + step - 1) with (stop - (i + step) + step - 1 + 1 * step) by lia.
      rewrite Z.div_add by lia.
      assert (0 <= (stop - (i + step) + step - 1) / step)
        by (apply Z.div_pos; lia).
      rewrite Z2Nat.inj_add by lia. rewrite Nat.add_comm. simpl.
      f_equal; [lia|].
      rewrite <- fmap_S_seq, <- list_fmap_compose.
      apply list_fmap_ext. intros ? j ?. simpl. lia.
    + replace (Z.to_nat _) with 0%nat; [done|].
      assert ((stop - i + step - 1) / step < 1); [|lia].
      apply Z.div_lt_upper_bound; lia.
Qed.

Lemma range_chunks (n : Z) :
  0 <= n ->
  range 0 n CHUNK_SIZE =
  (fun j : nat => Z.of_nat j * CHUNK_SIZE) <$> seq 0 (turns n).
Proof.
  intros Hn. unfold range. rewrite range_from_spec by (unfold CHUNK_SIZE; lia).
  unfold turns. rewrite Z.sub_0_r. done.
Qed.

Lemma turns_bounds (n : Z) :
  0 <= n ->
  n <= Z.of_nat (turns n) * CHUNK_SIZE < n + CHUNK_SIZE.
Proof.
  intros Hn. unfold turns, CHUNK_SIZE.
  rewrite Z2Nat.id by (apply Z.div_pos; lia).
  pose proof (Z.div_mod (n + 60000 - 1) 60000 ltac:(lia)).
  pose proof (Z.mod_pos_bound (n + 60000 - 1) 60000 ltac:(lia)).
  lia.
Qed.

Lemma slice_nonneg {A} (l : list A) (lo hi : Z) :
  0 <= lo -> 0 <= hi ->
  slice l lo hi = take (Z.to_nat (hi - lo)) (drop (Z.to_nat lo) l).
Proof.
  intros Hlo Hhi. unfold slice, clamp_index, len.
  destruct (Z.ltb_spec lo 0); [lia|]. destruct (Z.ltb_spec hi 0); [lia|].
  destruct (Z.le_gt_cases lo (Z.of_nat (length l))) as [Hl|Hl].
  - rewrite (Z.min_l lo) by done.
    destruct (Z.le_gt_cases hi (Z.of_nat (length l))) as [Hh|Hh].
    + by rewrite (Z.min_l hi).
    + rewrite (Z.min_r hi) by lia.
      rewrite !take_ge; [done| |]; rewrite length_drop; lia.
  - rewrite !drop_ge by lia. by destruct (Z.to_nat _), (Z.to_nat _).
Qed.

Lemma slice_chunk {A} (l : list A) (j : nat) :
  slice l (Z.of_nat j * CHUNK_SIZE) (Z.of_nat j * CHUNK_SIZE + CHUNK_SIZE) =
  take (Z.to_nat CHUNK_SIZE) (drop (j * Z.to_nat CHUNK_SIZE) l).
Proof.
  rewrite slice_nonneg by (unfold CHUNK_SIZE; lia).
  f_equal; [f_equal; lia|f_equal]. unfold CHUNK_SIZE. lia.
Qed.

Lemma concat_windows {A} (l : list A) (c a m : nat) :
  concat ((fun j => take c (drop (j * c) l)) <$> seq a m) =
  take (m * c) (drop (a * c) l).
Proof.
  revert a. induction m as [|m IH]; intros a; simpl; [done|].
  rewrite IH. rewrite <- take_take_drop, drop_drop.
  by rewrite (Nat.add_comm (a * c)).
Qed.

Lemma concat_windows_all {A} (l : list A) (c m : nat) :
  (length l <= m * c)%nat ->
  concat ((fun j => take c (drop (j * c) l)) <$> seq 0 m) = l.
Proof. intros H. rewrite concat_windows. simpl. by rewrite take_ge. Qed.

(** ** Paths *)

Lemma output_file_eq (k : Z) :
  output_file k =
  "client/data/musicbrainz-enriched-chunks/chunk-" +:+ format_02d k +:+ ".json".
Proof. reflexivity. Qed.

Lemma prefixes_OUTPUT_DIR :
  path_prefixes OUTPUT_DIR =
  ["client"; "client/data"; "client/data/musicbrainz-enriched-chunks"].
Proof. reflexivity. Qed.

Lemma output_file_ne_input (k : Z) : output_file k <> INPUT_FILE.
Proof. rewrite output_file_eq. unfold INPUT_FILE. simpl. discriminate. Qed.

Lemma output_file_not_prefix (k : Z) : output_file k ∉ path_prefixes OUTPUT_DIR.
Proof.
  rewrite prefixes_OUTPUT_DIR, output_file_eq. simpl.
  rewrite !not_elem_of_cons. repeat split; try discriminate.
  apply not_elem_of_nil.
Qed.

Lemma input_not_prefix : INPUT_FILE ∉ path_prefixes OUTPUT_DIR.
Proof.
  rewrite prefixes_OUTPUT_DIR. unfold INPUT_FILE.
  rewrite !not_elem_of_cons. repeat split; try discriminate.
  apply not_elem_of_nil.
Qed.

(** ** Directories *)

Lemma ensure_dir_lookup_ne fs p q : p <> q -> ensure_dir fs p !! q = fs !! q.
Proof.
  intros Hne. unfold ensure_dir. destruct (fs !! p); [done|].
  by rewrite lookup_insert_ne.
Qed.

Lemma foldl_ensure_dir_other fs ps q :
  q ∉ ps -> foldl ensure_dir fs ps !! q = fs !! q.
Proof.
  revert fs. induction ps as [|p ps IH]; intros fs Hq; simpl; [done|].
  apply not_elem_of_cons in Hq as [Hne Hq].
  rewrite IH by done. by apply ensure_dir_lookup_ne.
Qed.

Lemma ensure_dir_Dir fs p q : fs !! q = Some Dir -> ensure_dir fs p !! q = Some Dir.
Proof.
  intros Hq. unfold ensure_dir. destruct (fs !! p) eqn:E; [done|].
  destruct (decide (p = q)) as [->|Hne]; [congruence|].
  by rewrite lookup_insert_ne.
Qed.

Lemma foldl_ensure_dir_Dir fs ps q :
  fs !! q = Some Dir -> foldl ensure_dir fs ps !! q = Some Dir.
Proof.
  revert fs. induction ps as [|p ps IH]; intros fs Hq; simpl; [done|].
  by apply IH, ensure_dir_Dir.
Qed.

Lemma ensure_dir_not_file fs p q : not_file fs q -> not_file (ensure_dir fs p) q.
Proof.
  intros Hq c. unfold ensure_dir. destruct (fs !! p) eqn:E; [apply Hq|].
  destruct (decide (p = q)) as [->|Hne].
  - by rewrite lookup_insert_eq.
  - rewrite lookup_insert_ne by done. apply Hq.
Qed.

Lemma foldl_ensure_dir_made fs ps q :
  (forall p, p ∈ ps -> not_file fs p) -> q ∈ ps ->
  foldl ensure_dir fs ps !! q = Some Dir.
Proof.
  revert fs. induction ps as [|p ps IH]; intros fs Hnf Hq; simpl.
  - by apply elem_of_nil in Hq.
  - destruct (decide (q = p)) as [->|Hne].
    + apply foldl_ensure_dir_Dir. unfold ensure_dir.
      destruct (fs !! p) as [[|c]|] eqn:E; [done| |by rewrite lookup_insert_eq].
      exfalso. apply (Hnf p ltac:(left) c E).
    + apply IH.
      * intros p' Hp'. apply ensure_dir_not_file, Hnf. by right.
      * apply elem_of_cons in Hq as [|]; done.
Qed.

Lemma foldl_ensure_dir_id fs ps :
  (forall p, p ∈ ps -> fs !! p = Some Dir) -> foldl ensure_dir fs ps = fs.
Proof.
  induction ps as [|p ps IH]; intros H; simpl; [done|].
  unfold ensure_dir at 2. rewrite (H p) by left.
  apply IH. intros q Hq. apply H. by right.
Qed.

Lemma makedirs_levels_run leaf ps fs :
  (forall p, p ∈ ps -> not_file fs p) ->
  for_each ps (mkdir_exist_ok leaf) tt fs =
  mkRun (Ok tt) (foldl ensure_dir fs ps) [].
Proof.
  revert fs. induction ps as [|p ps IH]; intros fs Hnf; simpl; [done|].
  assert (mkdir_exist_ok leaf p tt fs = mkRun (Ok tt) (ensure_dir fs p) []) as E.
  { unfold mkdir_exist_ok, ensure_dir.
    destruct (fs !! p) as [[|c]|] eqn:E; [done| |done].
    exfalso. apply (Hnf p ltac:(left) c E). }
  erewrite bind_ok by exact E. rewrite IH; [done|].
  intros q Hq. apply ensure_dir_not_file, Hnf. by right.
Qed.

Lemma makedirs_run path fs :
  (forall p, p ∈ path_prefixes path -> not_file fs p) ->
  os_makedirs path fs = mkRun (Ok tt) (with_dirs fs path) [Makedirs path].
Proof.
  intros Hnf. unfold os_makedirs.
  erewrite bind_ok by reflexivity. by rewrite makedirs_levels_run.
Qed.

(** Whatever the disk holds, [os.makedirs] either makes the directories
    or stops on a file in the way; it writes no file. *)
Lemma makedirs_levels_cases leaf ps fs :
  let r := for_each ps (mkdir_exist_ok leaf) tt fs in
  trace r = [] /\
  (res r = Ok tt /\ disk r = foldl ensure_dir fs ps \/
   res r = Raise FileExistsError \/ res r = Raise NotADirectoryError).
Proof.
  revert fs. induction ps as [|p ps IH]; intros fs; [simpl; by auto|].
  cbn [for_each foldl].
  destruct (fs !! p) as [[|c]|] eqn:E.
  - erewrite bind_ok by (unfold mkdir_exist_ok; by rewrite E).
    replace (ensure_dir fs p) with fs by (unfold ensure_dir; by rewrite E).
    simpl. apply IH.
  - erewrite bind_raise by (unfold mkdir_exist_ok; by rewrite E).
    simpl. split; [done|]. destruct (String.eqb p leaf); auto.
  - erewrite bind_ok by (unfold mkdir_exist_ok; by rewrite E).
    replace (ensure_dir fs p) with (<[p:=Dir]> fs)
      by (unfold ensure_dir; by rewrite E).
    simpl. apply IH.
Qed.

Lemma makedirs_cases path fs :
  let r := os_makedirs path fs in
  trace r = [Makedirs path] /\
  (res r = Ok tt /\ disk r = with_dirs fs path \/
   res r = Raise FileExistsError \/ res r = Raise NotADirectoryError).
Proof.
  unfold os_makedirs, with_dirs.
  pose proof (makedirs_levels_cases path (path_prefixes path) fs) as [Ht Hr].
  unfold mbind, M_bind, bind. simpl in *.
  destruct (res (for_each _ _ _ _)) eqn:Er; simpl; rewrite Ht; (split; [done|]).
  - destruct Hr as [[? ?]|[?|?]]; try done. left. split; [|done]. by destruct a.
  - destruct Hr as [[? ?]|[?|?]]; try done; auto.
Qed.

(** ** Steps of a run *)

Lemma bind_step {A B} (m : M A) (f : A -> M B) fs a fs1 t1 :
  m fs = mkRun (Ok a) fs1 t1 -> (m ≫= f) fs = prepend t1 (f a fs1).
Proof. intros E. unfold mbind, M_bind, bind, prepend. by rewrite E. Qed.

Lemma prepend_prepend {A} t1 t2 (r : run A) :
  prepend t1 (prepend t2 r) = prepend (t1 ++ t2) r.
Proof. unfold prepend. simpl. by rewrite app_assoc. Qed.


Lemma os_path_exists_Some path fs n :
  fs !! path = Some n -> os_path_exists path fs = mkRun (Ok true) fs [].
Proof. intros E. unfold os_path_exists. by rewrite E. Qed.

Lemma os_path_exists_None path fs :
  fs !! path = None -> os_path_exists path fs = mkRun (Ok false) fs [].
Proof. intros E. unfold os_path_exists. by rewrite E. Qed.

Lemma read_text_File path fs content :
  fs !! path = Some (File content) ->
  read_text path fs = mkRun (Ok content) fs [].
Proof. intros E. unfold read_text. by rewrite E. Qed.

Lemma dumped_app t1 t2 : dumped (t1 ++ t2) = dumped t1 ++ dumped t2.
Proof. apply omap_app. Qed.

Lemma dumped_turns metadata artist_items (js : list nat) :
  dumped (concat (turn_events metadata artist_items <$> js)) =
  (fun j => (output_file (Z.of_nat j),
             PDict (nth_chunk metadata artist_items j))) <$> js.
Proof.
  induction js as [|j js IH]; [done|].
  rewrite !fmap_cons. cbn [concat]. rewrite dumped_app, IH. done.
Qed.

Lemma turns_zero (n : Z) : turns n <> 0%nat -> n <> 0.
Proof. intros H ->. by apply H. Qed.

Section Loop.

Variable json_load : string -> option pyval.
Variable json_dump : pyval -> Z -> string.

Variables metadata artist_items : dict.

Local Abbreviation body := (loop_body json_dump metadata artist_items (len artist_items)).
Local Abbreviation write := (write_chunk json_dump metadata artist_items).
Local Abbreviation events := (turn_events metadata artist_items).

Lemma loop_body_Ok (j : nat) fs :
  len artist_items <> 0 -> not_dir fs (output_file (Z.of_nat j)) ->
  body (Z.of_nat j * CHUNK_SIZE) (Z.of_nat j) fs =
  mkRun (Ok (Z.of_nat (S j))) (write fs j) (events j).
Proof.
  intros Hn Hd. unfold loop_body.
  erewrite bind_step; cycle 1.
  { unfold dump_to. unfold not_dir in Hd.
    destruct (fs !! output_file (Z.of_nat j)) as [[|c]|]; done. }
  erewrite bind_step; cycle 1.
  { unfold true_div. destruct (Z.eqb_spec (len artist_items) 0); done. }
  erewrite bind_step by reflexivity.
  unfold prepend, write_chunk, turn_events, nth_chunk. simpl.
  f_equal. f_equal. lia.
Qed.

Lemma loop_body_Dir (i k : Z) fs :
  fs !! output_file k = Some Dir ->
  body i k fs = mkRun (Raise IsADirectoryError) fs [].
Proof.
  intros Hd. unfold loop_body.
  erewrite bind_raise; [done|]. unfold dump_to. by rewrite Hd.
Qed.

(** The loop from turn [a] on: it runs [m'] turns, all [m] of them unless
    a directory sits where the next chunk file goes. *)
Lemma loop_cases (m a : nat) fs :
  (m <> 0%nat -> len artist_items <> 0) ->
  exists m' : nat, (m' <= m)%nat /\
    let r := for_each (starts a m) body (Z.of_nat a) fs in
    disk r = foldl write fs (seq a m') /\
    trace r = concat (events <$> seq a m') /\
    (m' = m /\ res r = Ok (Z.of_nat (a + m)) \/
     (m' < m)%nat /\ res r = Raise IsADirectoryError /\
     disk r !! output_file (Z.of_nat (a + m')) = Some Dir).
Proof.
  revert a fs. induction m as [|m IH]; intros a fs Hn.
  - exists 0%nat. split; [done|]. simpl. rewrite Nat.add_0_r. auto.
  - unfold starts. cbn [seq fmap list_fmap for_each].
    destruct (decide (fs !! output_file (Z.of_nat a) = Some Dir)) as [Hd|Hd].
    + exists 0%nat. split; [lia|].
      erewrite bind_raise by (by apply loop_body_Dir).
      simpl. rewrite Nat.add_0_r. split_and!; [done..|].
      right. split_and!; [lia|done..].
    + erewrite bind_step by (apply loop_body_Ok; auto).
      destruct (IH (S a) (write fs a)) as (m' & Hle & Hdisk & Htrace & Hres).
      { intros _. by apply Hn. }
      exists (S m'). split; [lia|].
      unfold starts in *. simpl in *.
      rewrite Hdisk, Htrace. split_and!; [done..|].
      replace (a + S m)%nat with (S (a + m)) by lia.
      replace (a + S m')%nat with (S (a + m')) by lia.
      destruct Hres as [[-> ?]|(? & ? & Hdir)]; [left|right]; split_and!;
        try first [done|lia].
      by rewrite <- Hdisk.
Qed.

Lemma foldl_write_not_dir (js : list nat) fs q :
  not_dir fs q -> not_dir (foldl write fs js) q.
Proof.
  revert fs. induction js as [|j js IH]; intros fs Hq; simpl; [done|].
  apply IH. unfold not_dir, write_chunk in *.
  destruct (decide (output_file (Z.of_nat j) = q)) as [<-|Hne].
  - by rewrite lookup_insert_eq.
  - by rewrite lookup_insert_ne.
Qed.

Lemma foldl_write_other (js : list nat) fs q :
  (forall k, output_file k <> q) -> foldl write fs js !! q = fs !! q.
Proof.
  intros Hq. revert fs. induction js as [|j js IH]; intros fs; simpl; [done|].
  rewrite IH. unfold write_chunk. by rewrite lookup_insert_ne.
Qed.

(** With no directory in the way the loop runs every turn. *)
Lemma loop_runs (m a : nat) fs :
  (m <> 0%nat -> len artist_items <> 0) ->
  (forall k, not_dir fs (output_file k)) ->
  for_each (starts a m) body (Z.of_nat a) fs =
  mkRun (Ok (Z.of_nat (a + m))) (foldl write fs (seq a m))
        (concat (events <$> seq a m)).
Proof.
  intros Hn Hfree.
  destruct (loop_cases m a fs Hn) as (m' & Hle & Hdisk & Htrace & Hres).
  simpl in *. destruct Hres as [[-> Hres]|(_ & _ & Hdir)].
  - rewrite (run_eta (for_each _ _ _ _)). by rewrite Hres, Hdisk, Htrace.
  - exfalso. rewrite Hdisk in Hdir.
    exact (foldl_write_not_dir (seq a m') fs _ (Hfree _) Hdir).
Qed.

End Loop.

Section Main.

Variable json_load : string -> option pyval.
Variable json_dump : pyval -> Z -> string.

Local Abbreviation script := (main json_load json_dump).
Local Abbreviation loop_body := (loop_body json_dump).
Local Abbreviation write_chunk := (write_chunk json_dump).

Lemma epilogue_run n k fs :
  epilogue n k fs = mkRun (Ok tt) fs (epilogue_events k n).
Proof. reflexivity. Qed.

(** The run up to the loop, for an input that loads. *)
Lemma main_loop fs fs1 n text d artists :
  fs !! INPUT_FILE = Some n ->
  os_makedirs OUTPUT_DIR fs = mkRun (Ok tt) fs1 [Makedirs OUTPUT_DIR] ->
  fs1 !! INPUT_FILE = Some (File text) ->
  json_load text = Some (PDict d) ->
  dict_get d "artists" = Some (PDict artists) ->
  script fs =
  prepend (prologue_events (len artists))
    ((for_each (range 0 (len artists) CHUNK_SIZE)
        (loop_body (metadata_of d) artists (len artists)) 0
      ≫= epilogue (len artists)) fs1).
Proof.
  intros Hin Hmk Hrd Hld Hart. unfold main.
  erewrite bind_step by reflexivity. cbv beta.
  erewrite bind_step by (by eapply os_path_exists_Some). cbv beta.
  simpl negb. cbv iota.
  erewrite bind_step by reflexivity. cbv beta.
  erewrite bind_step by exact Hmk. cbv beta.
  do 3 (erewrite bind_step by reflexivity; cbv beta).
  erewrite bind_step by (by apply read_text_File). cbv beta.
  rewrite Hld.
  erewrite bind_step by reflexivity. cbv beta.
  erewrite bind_step by reflexivity. cbv beta zeta.
  erewrite bind_step by (unfold getitem; rewrite Hart; reflexivity). cbv beta.
  erewrite bind_step by reflexivity. cbv beta.
  do 3 (erewrite bind_step by reflexivity; cbv beta).
  rewrite !prepend_prepend. reflexivity.
Qed.

Lemma with_dirs_input fs :
  with_dirs fs OUTPUT_DIR !! INPUT_FILE = fs !! INPUT_FILE.
Proof. apply foldl_ensure_dir_other, input_not_prefix. Qed.

Lemma with_dirs_output fs k :
  with_dirs fs OUTPUT_DIR !! output_file k = fs !! output_file k.
Proof. apply foldl_ensure_dir_other, output_file_not_prefix. Qed.

(** A run on a valid input with nothing in the way, in full. *)
Lemma main_runs fs d artists :
  loads json_load fs d artists -> unobstructed fs ->
  script fs =
  mkRun (Ok tt)
    (foldl (write_chunk (metadata_of d) artists) (with_dirs fs OUTPUT_DIR)
       (seq 0 (turns (len artists))))
    (prologue_events (len artists) ++
     concat (turn_events (metadata_of d) artists <$> seq 0 (turns (len artists))) ++
     epilogue_events (Z.of_nat (turns (len artists))) (len artists)).
Proof.
  intros (text & Hin & Hld & Hart) [Hnf Hnd].
  erewrite main_loop; [|done|by apply makedirs_run| |done..].
  2: by rewrite with_dirs_input.
  rewrite range_chunks by (unfold len; lia).
  erewrite bind_step; cycle 1.
  { apply (loop_runs json_dump _ _ _ 0%nat).
    - intros H%turns_zero. done.
    - intros k. unfold not_dir. rewrite with_dirs_output. apply Hnd. }
  rewrite epilogue_run. unfold prepend. simpl. done.
Qed.

(** A run on an input that loads, whatever else is on the disk: the
    chunks it writes are the first of those of a complete run, and all
    of them when it returns. *)
Lemma main_dumps fs d artists :
  loads json_load fs d artists ->
  exists m' : nat, (m' <= turns (len artists))%nat /\
    dumped (trace (script fs)) = chunks_of d artists m' /\
    (res (script fs) = Ok tt -> m' = turns (len artists)).
Proof.
  intros (text & Hin & Hld & Hart).
  pose proof (makedirs_cases OUTPUT_DIR fs) as Hmk. cbv zeta in Hmk.
  destruct Hmk as [Ht Hr].
  destruct Hr as [[Hres Hdisk]|Hfail].
  - erewrite main_loop; [|done| | |done..]; cycle 1.
    { rewrite (run_eta (os_makedirs _ _)). by rewrite Hres, Ht. }
    { by rewrite Hdisk, with_dirs_input. }
    rewrite range_chunks by (unfold len; lia).
    destruct (loop_cases json_dump (metadata_of d) artists
                (turns (len artists)) 0%nat (disk (os_makedirs OUTPUT_DIR fs)))
      as (m' & Hle & Hcase).
    { intros H%turns_zero. done. }
    cbv zeta in Hcase. destruct Hcase as (_ & Htr & Hcase).
    exists m'. split; [done|]. fold (starts 0 (turns (len artists))).
    change (Z.of_nat 0) with 0 in *.
    unfold prepend. cbn [res trace].
    rewrite trace_bind, res_bind, Htr, dumped_app.
    destruct Hcase as [[-> Hok]|(Hlt & Hraise & _)].
    + rewrite Hok. split; [|done].
      rewrite dumped_app, dumped_turns. simpl. by rewrite app_nil_r.
    + rewrite Hraise. split; [|done]. rewrite dumped_turns. done.
  - exists 0%nat. split; [lia|].
    assert (exists e D, os_makedirs OUTPUT_DIR fs =
                        mkRun (Raise e) D [Makedirs OUTPUT_DIR]) as (e & D & Hmk).
    { rewrite (run_eta (os_makedirs _ _)), Ht.
      destruct Hfail as [-> | ->]; eauto. }
    unfold main.
    erewrite bind_step by reflexivity. cbv beta.
    erewrite bind_step by (by eapply os_path_exists_Some). cbv beta.
    simpl negb. cbv iota.
    erewrite bind_step by reflexivity. cbv beta.
    erewrite bind_raise by exact Hmk.
    done.
Qed.

(** Without the input file the run stops at once. *)
Lemma main_missing fs :
  fs !! INPUT_FILE = None ->
  script fs =
  mkRun (Raise (SystemExit 1)) fs [Print LStarting; Print (LNotFound INPUT_FILE)].
Proof.
  intros Hin. unfold main.
  erewrite bind_step by reflexivity. cbv beta.
  erewrite bind_step by (by eapply os_path_exists_None). cbv beta.
  simpl negb. cbv iota.
  erewrite bind_raise; [done|].
  erewrite bind_step by reflexivity. done.
Qed.

End Main.

(** ** Fields of a chunk *)

Lemma field_chunk_index md k ca n :
  field (PDict (chunk_data md k ca n)) "chunk_index" = Some (PInt k).
Proof.
  unfold field, chunk_data, dict_display. simpl.
  rewrite !dict_get_set_ne by discriminate. apply dict_get_set_eq.
Qed.

Lemma field_chunk_artist_count md k ca n :
  field (PDict (chunk_data md k ca n)) "chunk_artist_count" = Some (PInt (len ca)).
Proof.
  unfold field, chunk_data, dict_display. simpl.
  rewrite !dict_get_set_ne by discriminate. apply dict_get_set_eq.
Qed.

Lemma field_total_artist_count md k ca n :
  field (PDict (chunk_data md k ca n)) "total_artist_count" = Some (PInt n).
Proof.
  unfold field, chunk_data, dict_display. simpl.
  rewrite !dict_get_set_ne by discriminate. apply dict_get_set_eq.
Qed.

Lemma field_artists md k ca n :
  field (PDict (chunk_data md k ca n)) "artists" = Some (PDict ca).
Proof.
  unfold field, chunk_data, dict_display. simpl. apply dict_get_set_eq.
Qed.

Lemma field_other md k ca n key :
  key ∉ ["chunk_index"; "chunk_artist_count"; "total_artist_count"; "artists"] ->
  field (PDict (chunk_data md k ca n)) key = dict_get md key.
Proof.
  rewrite !not_elem_of_cons. intros (? & ? & ? & ? & _).
  unfold field, chunk_data, dict_display. simpl.
  by rewrite !dict_get_set_ne.
Qed.

Lemma artists_of_nth_chunk md items j :
  artists_of (PDict (nth_chunk md items j)) =
  dict_of_items (slice items (Z.of_nat j * CHUNK_SIZE)
                   (Z.of_nat j * CHUNK_SIZE + CHUNK_SIZE)).
Proof. unfold artists_of, nth_chunk. by rewrite field_artists. Qed.

Lemma artists_of_nth_chunk_dict md items j :
  is_dict items ->
  artists_of (PDict (nth_chunk md items j)) =
  take (Z.to_nat CHUNK_SIZE) (drop (j * Z.to_nat CHUNK_SIZE) items).
Proof.
  intros Hd. rewrite artists_of_nth_chunk, dict_of_items_NoDup.
  - apply slice_chunk.
  - by apply NoDup_keys_slice.
Qed.

Lemma chunks_of_objs d artists m :
  (chunks_of d artists m).*2 =
  (fun j => PDict (nth_chunk (metadata_of d) artists j)) <$> seq 0 m.
Proof.
  unfold chunks_of. rewrite <- list_fmap_compose. by apply list_fmap_ext.
Qed.

Lemma chunks_of_lookup d artists m (j : nat) p obj :
  chunks_of d artists m !! j = Some (p, obj) ->
  (j < m)%nat /\ p = output_file (Z.of_nat j) /\
  obj = PDict (nth_chunk (metadata_of d) artists j).
Proof.
  unfold chunks_of. rewrite list_lookup_fmap.
  destruct (seq 0 m !! j) as [j'|] eqn:E; [|done].
  apply lookup_seq in E as [-> ?]. simpl. by intros [= <- <-].
Qed.

Lemma length_chunks_of d artists m : length (chunks_of d artists m) = m.
Proof. unfold chunks_of. by rewrite length_fmap, length_seq. Qed.

Lemma len_nonneg {A} (l : list A) : 0 <= len l.
Proof. unfold len. lia. Qed.

Lemma len_window {A} (l : list A) (j : nat) :
  len (take (Z.to_nat CHUNK_SIZE) (drop (j * Z.to_nat CHUNK_SIZE) l)) =
  Z.max 0 (Z.min CHUNK_SIZE (len l - Z.of_nat j * CHUNK_SIZE)).
Proof.
  unfold len. rewrite length_take, length_drop.
  assert (Z.of_nat (j * Z.to_nat CHUNK_SIZE) = Z.of_nat j * CHUNK_SIZE) as E
    by (unfold CHUNK_SIZE; lia).
  assert (Z.of_nat (Z.to_nat CHUNK_SIZE) = CHUNK_SIZE) as E'
    by (unfold CHUNK_SIZE; lia).
  lia.
Qed.

Lemma dumped_run_events d artists n k m :
  dumped (prologue_events n ++
          concat (turn_events (metadata_of d) artists <$> seq 0 m) ++
          epilogue_events k n) =
  chunks_of d artists m.
Proof.
  rewrite !dumped_app, dumped_turns.
  change (dumped (prologue_events n)) with (@nil (string * pyval)).
  change (dumped (epilogue_events k n)) with (@nil (string * pyval)).
  by rewrite app_nil_r.
Qed.

Lemma len_chunks_of_bounds d artists :
  len artists <= len (chunks_of d artists (turns (len artists))) * 60000
              < len artists + 60000.
Proof.
  unfold len at 2 4. rewrite length_chunks_of.
  apply (turns_bounds (len artists) (len_nonneg _)).
Qed.

Section Chunks.

Variable json_load : string -> option pyval.
Variable json_dump : pyval -> Z -> string.

Local Abbreviation script := (main json_load json_dump).

(** C1. On a valid input whose ['artists'] entry is a dict, with nothing
    in the way of the output, the run returns, and the ['artists'] entries
    of the chunks it wrote, put end to end in the order written, are the
    artist entries of the input, in their order, each once and with its
    value; the chunks are written in the order of their ['chunk_index']. *)
Theorem chunks_partition_artists fs d artists :
  loads json_load fs d artists -> is_dict artists -> unobstructed fs ->
  res (script fs) = Ok tt /\
  concat (artists_of <$> (dumped (trace (script fs))).*2) = artists /\
  (forall (j : nat) obj,
      (dumped (trace (script fs))).*2 !! j = Some obj ->
      field obj "chunk_index" = Some (PInt (Z.of_nat j))).
Proof.
  intros Hload Hdict Hfree. rewrite (main_runs _ _ _ _ _ Hload Hfree).
  cbn [res trace]. split; [done|].
  rewrite dumped_run_events, chunks_of_objs. split.
  - rewrite <- list_fmap_compose.
    erewrite list_fmap_ext; cycle 1.
    { intros i j _. simpl. by apply artists_of_nth_chunk_dict. }
    apply concat_windows_all.
    pose proof (turns_bounds (len artists) (len_nonneg _)) as Hb.
    unfold len, CHUNK_SIZE in *. lia.
  - intros j obj. rewrite list_lookup_fmap.
    destruct (seq 0 _ !! j) as [j'|] eqn:E; [|done].
    apply lookup_seq in E as [-> _]. simpl. intros [= <-].
    apply field_chunk_index.
Qed.

(** C2. On a valid input with nothing in the way the run returns; the
    ['chunk_index'] fields of the chunks written are 0, 1, 2, ... in
    order, and their number [m] is the ceiling of the number of artists
    over 60000: the least [m] with [total <= m * 60000]. *)
Theorem chunk_indices_contiguous fs d artists :
  loads json_load fs d artists -> unobstructed fs ->
  res (script fs) = Ok tt /\
  exists m : nat,
    length (dumped (trace (script fs))) = m /\
    (len artists <= Z.of_nat m * 60000 < len artists + 60000) /\
    ((fun obj => field obj "chunk_index") <$> (dumped (trace (script fs))).*2) =
    ((fun j : nat => Some (PInt (Z.of_nat j))) <$> seq 0 m).
Proof.
  intros Hload Hfree. rewrite (main_runs _ _ _ _ _ Hload Hfree).
  cbn [res trace]. split; [done|].
  rewrite dumped_run_events. exists (turns (len artists)).
  split; [apply length_chunks_of|]. split.
  - apply (turns_bounds (len artists) (len_nonneg _)).
  - rewrite chunks_of_objs, <- list_fmap_compose.
    apply list_fmap_ext. intros i j _. simpl. apply field_chunk_index.
Qed.

(** C3. On a valid input with nothing in the way the run returns and
    writes as many chunks as the ceiling of the number of artists over
    60000; every chunk written but the last holds exactly [CHUNK_SIZE]
    artists, and the last holds [total mod CHUNK_SIZE] of them, or
    [CHUNK_SIZE] when that remainder is zero. *)
Theorem chunk_sizes fs d artists :
  loads json_load fs d artists -> is_dict artists -> unobstructed fs ->
  res (script fs) = Ok tt /\
  (len artists <= len (dumped (trace (script fs))) * 60000
               < len artists + 60000) /\
  forall (j : nat) obj,
    (dumped (trace (script fs))).*2 !! j = Some obj ->
    ((S j < length (dumped (trace (script fs))))%nat ->
     len (artists_of obj) = CHUNK_SIZE) /\
    (S j = length (dumped (trace (script fs))) ->
     len (artists_of obj) =
     if len artists mod CHUNK_SIZE =? 0 then CHUNK_SIZE
     else len artists mod CHUNK_SIZE).
Proof.
  intros Hload Hdict Hfree. rewrite (main_runs _ _ _ _ _ Hload Hfree).
  cbn [res trace]. split; [done|].
  rewrite dumped_run_events. split; [apply len_chunks_of_bounds|].
  rewrite length_chunks_of, chunks_of_objs.
  intros j obj. rewrite list_lookup_fmap.
  destruct (seq 0 _ !! j) as [j'|] eqn:E; [|done].
  apply lookup_seq in E as [-> Hj]. simpl. intros [= <-].
  rewrite artists_of_nth_chunk_dict by done. rewrite len_window.
  pose proof (turns_bounds (len artists) (len_nonneg _)) as Hb.
  pose proof (len_nonneg artists) as Hn.
  revert Hb Hj Hn. generalize (turns (len artists)) as m.
  generalize (len artists) as n. unfold CHUNK_SIZE. intros n m Hb Hj Hn. split.
  - intros Hlt. lia.
  - intros <-.
    destruct (Z.eqb_spec (n mod 60000) 0) as [Hz|Hz].
    + assert (n - Z.of_nat j * 60000 = 60000); [|lia].
      apply Z.mod_divide in Hz as [q Hq]; lia.
    + assert (n mod 60000 = n - Z.of_nat j * 60000) as ->; [|lia].
      symmetry. apply (Z.mod_unique_pos _ _ (Z.of_nat j)); [|lia].
      split; [lia|].
      assert (n - Z.of_nat j * 60000 <> 60000); [|lia].
      intros Heq. apply Hz. replace n with ((Z.of_nat j + 1) * 60000) by lia.
      apply Z.mod_mul. lia.
Qed.

(** The counters of a chunk, for every chunk that any run on an input
    that loads writes, also a run that stops later on. *)
Lemma dumped_chunk_counts fs d artists :
  loads json_load fs d artists ->
  forall obj, obj ∈ (dumped (trace (script fs))).*2 ->
    field obj "total_artist_count" = Some (PInt (len artists)) /\
    exists a, field obj "artists" = Some (PDict a) /\
              field obj "chunk_artist_count" = Some (PInt (len a)).
Proof.
  intros Hload obj Hobj.
  destruct (main_dumps json_load json_dump fs d artists Hload)
    as (m' & _ & Hd & _).
  rewrite Hd, chunks_of_objs in Hobj.
  apply list_elem_of_fmap in Hobj as (j & -> & _). unfold nth_chunk.
  split; [apply field_total_artist_count|].
  eexists. split; [apply field_artists|apply field_chunk_artist_count].
Qed.

(** C4. On a valid input with nothing in the way the run returns and
    writes as many chunks as the ceiling of the number of artists over
    60000, at least one when there is an artist; every chunk written
    records the number of artist entries of the input as its
    ['total_artist_count'], the same in all of them, and the number of
    entries of its own ['artists'] field as its ['chunk_artist_count']. *)
Theorem chunk_counts fs d artists :
  loads json_load fs d artists -> unobstructed fs ->
  res (script fs) = Ok tt /\
  (len artists <= len (dumped (trace (script fs))) * 60000
               < len artists + 60000) /\
  (artists <> [] -> dumped (trace (script fs)) <> []) /\
  forall obj, obj ∈ (dumped (trace (script fs))).*2 ->
    field obj "total_artist_count" = Some (PInt (len artists)) /\
    exists a, field obj "artists" = Some (PDict a) /\
              field obj "chunk_artist_count" = Some (PInt (len a)).
Proof.
  intros Hload Hfree.
  pose proof (dumped_chunk_counts fs d artists Hload) as Hcounts.
  rewrite (main_runs _ _ _ _ _ Hload Hfree) in *.
  cbn [res trace] in *. split; [done|].
  rewrite dumped_run_events in *.
  pose proof (len_chunks_of_bounds d artists) as Hb.
  split; [exact Hb|]. split; [|exact Hcounts].
  intros Hne Hnil. rewrite Hnil in Hb. unfold len in Hb. simpl in Hb.
  destruct artists; [done|]. simpl in Hb. lia.
Qed.

End Chunks.

(** ** Division in the progress report *)

Lemma no_zde_bind {A B} (m : M A) (f : A -> M B) :
  no_zde m -> (forall a, no_zde (f a)) -> no_zde (m ≫= f).
Proof.
  intros Hm Hf fs. rewrite res_bind.
  destruct (res (m fs)) as [a|e] eqn:E; [apply Hf|].
  specialize (Hm fs). congruence.
Qed.

Lemma no_zde_print l : no_zde (print l).
Proof. by intros fs. Qed.

Lemma no_zde_ret {A} (a : A) : no_zde (mret a).
Proof. by intros fs. Qed.

Lemma no_zde_raise {A} e : e <> ZeroDivisionError -> no_zde (@raise A e).
Proof. intros He fs. simpl. congruence. Qed.

Lemma no_zde_lift {A} e (o : option A) :
  e <> ZeroDivisionError -> no_zde (lift e o).
Proof. intros He. destruct o; [by intros fs|by apply no_zde_raise]. Qed.

Lemma no_zde_items v : no_zde (items v).
Proof. destruct v; by intros fs. Qed.

Lemma no_zde_exists path : no_zde (os_path_exists path).
Proof. by intros fs. Qed.

Lemma no_zde_makedirs path : no_zde (os_makedirs path).
Proof.
  intros fs. pose proof (makedirs_cases path fs) as H. cbv zeta in H.
  destruct H as [_ [[-> _]|[-> | ->]]]; done.
Qed.

Lemma no_zde_read_text path : no_zde (read_text path).
Proof.
  intros fs. unfold read_text. by destruct (fs !! path) as [[|c]|].
Qed.

(** The loop divides by [len artist_items], and turns only when the list
    is not empty. *)
Lemma no_zde_loop json_dump metadata (artist_items : dict) :
  no_zde (for_each (range 0 (len artist_items) CHUNK_SIZE)
            (loop_body json_dump metadata artist_items (len artist_items)) 0).
Proof.
  intros fs. rewrite range_chunks by apply len_nonneg.
  destruct (loop_cases json_dump metadata artist_items
              (turns (len artist_items)) 0%nat fs) as (m' & _ & H).
  { intros Hm. by apply turns_zero. }
  cbv zeta in H. change (Z.of_nat 0) with 0 in H.
  fold (starts 0 (turns (len artist_items))).
  destruct H as (_ & _ & [[_ Hr]|(_ & Hr & _)]); by rewrite Hr.
Qed.

(** The division itself does fail on a zero divisor. *)
Lemma true_div_by_zero a fs : res (true_div a 0 fs) = Raise ZeroDivisionError.
Proof. reflexivity. Qed.

Section Exits.

Variable json_load : string -> option pyval.
Variable json_dump : pyval -> Z -> string.

Local Abbreviation script := (main json_load json_dump).

(** C10. No run of the script raises [ZeroDivisionError]: the loop body,
    which divides by the number of artists, turns only when there is at
    least one. *)
Theorem progress_division_safe fs :
  res (main json_load json_dump fs) <> Raise ZeroDivisionError.
Proof.
  revert fs. change (no_zde script). unfold main.
  apply no_zde_bind; [apply no_zde_print|intros _].
  apply no_zde_bind; [apply no_zde_exists|intros found].
  apply no_zde_bind.
  { destruct found; simpl; [apply no_zde_ret|].
    apply no_zde_bind; [apply no_zde_print|intros _].
    by apply no_zde_raise. }
  intros _.
  apply no_zde_bind; [apply no_zde_makedirs|intros _].
  do 3 (apply no_zde_bind; [apply no_zde_print|intros _]).
  apply no_zde_bind; [apply no_zde_read_text|intros text].
  apply no_zde_bind; [by apply no_zde_lift|intros data].
  apply no_zde_bind; [apply no_zde_items|intros data_items].
  apply no_zde_bind; [by apply no_zde_lift|intros artists].
  apply no_zde_bind; [apply no_zde_items|intros artist_items].
  do 3 (apply no_zde_bind; [apply no_zde_print|intros _]).
  apply no_zde_bind; [apply no_zde_loop|intros chunk_index].
  do 3 (apply no_zde_bind; [apply no_zde_print|intros _]).
  apply no_zde_print.
Qed.

(** C5. Without the input file the run ends with [SystemExit 1], a
    non-zero exit status; it makes no directory and writes no file, and
    the disk is as it was. *)
Theorem missing_input_exits fs :
  fs !! INPUT_FILE = None ->
  res (script fs) = Raise (SystemExit 1) /\
  exit_status (res (script fs)) <> 0 /\
  disk (script fs) = fs /\
  (forall p, Makedirs p ∉ trace (script fs)) /\
  dumped (trace (script fs)) = [].
Proof.
  intros Hin. rewrite (main_missing _ _ _ Hin). cbn [res disk trace].
  split_and!; try done.
  intros p. rewrite !not_elem_of_cons. split_and!; try done.
  apply not_elem_of_nil.
Qed.

(** C9. On a valid input with no artists, and no file where the output
    directory or a directory above it goes, the run returns with exit
    status 0, writes no chunk, and leaves the output directory made:
    the disk differs from the one before only by directories that were
    missing. *)
Theorem empty_artists_no_chunks fs d :
  loads json_load fs d [] ->
  (forall p, p ∈ path_prefixes OUTPUT_DIR -> not_file fs p) ->
  res (script fs) = Ok tt /\
  exit_status (res (script fs)) = 0 /\
  dumped (trace (script fs)) = [] /\
  Makedirs OUTPUT_DIR ∈ trace (script fs) /\
  disk (script fs) = with_dirs fs OUTPUT_DIR /\
  disk (script fs) !! OUTPUT_DIR = Some Dir /\
  (forall q content, disk (script fs) !! q = Some (File content) <->
                     fs !! q = Some (File content)).
Proof.
  intros (text & Hin & Hld & Hart) Hnf.
  erewrite main_loop; [|done|by apply makedirs_run| |done..].
  2: by rewrite with_dirs_input.
  change (range 0 (len []) CHUNK_SIZE) with (@nil Z). cbn [for_each].
  erewrite bind_step by reflexivity. rewrite epilogue_run.
  unfold prepend. cbn [res disk trace]. split_and!; try done.
  - apply elem_of_app. left. unfold prologue_events.
    rewrite !elem_of_cons. auto.
  - apply foldl_ensure_dir_made; [done|].
    rewrite prefixes_OUTPUT_DIR. rewrite !elem_of_cons. auto.
  - intros q content. unfold with_dirs.
    destruct (decide (q ∈ path_prefixes OUTPUT_DIR)) as [Hq|Hq].
    + rewrite (foldl_ensure_dir_made _ _ _ Hnf Hq).
      split; [done|]. intros H. by apply Hnf in H.
    + by rewrite foldl_ensure_dir_other.
Qed.

End Exits.

(** ** Running twice *)

Section Writes.

Variable json_dump : pyval -> Z -> string.
Variables metadata artist_items : dict.

Local Abbreviation write := (write_chunk json_dump metadata artist_items).

Lemma foldl_write_union (js : list nat) (fs : gmap string node) :
  foldl write fs js = foldl write ∅ js ∪ fs.
Proof.
  revert fs. induction js as [|j js IH]; intros fs; simpl.
  - by rewrite (left_id_L ∅ (∪)).
  - rewrite IH, (IH (write ∅ j)). unfold write_chunk.
    rewrite !insert_union_singleton_l, (right_id_L ∅ (∪)).
    by rewrite (assoc_L (∪)).
Qed.

Lemma foldl_write_twice (js : list nat) (fs : gmap string node) :
  foldl write (foldl write fs js) js = foldl write fs js.
Proof.
  rewrite (foldl_write_union js (foldl write fs js)).
  rewrite (foldl_write_union js fs).
  by rewrite (assoc_L (∪)), (idemp_L (∪)).
Qed.

End Writes.

(** ** Small worlds *)

Lemma disk_with_loads text d artists :
  dict_get d "artists" = Some (PDict artists) ->
  loads (load_as text (PDict d)) (disk_with text) d artists.
Proof.
  intros Hart. exists text. split_and!; [|by unfold load_as; rewrite String.eqb_refl|done].
  unfold disk_with. apply lookup_singleton_eq.
Qed.

Lemma disk_with_unobstructed text : unobstructed (disk_with text).
Proof.
  split.
  - intros p Hp c. unfold disk_with. rewrite lookup_singleton_ne; [done|].
    intros <-. by apply input_not_prefix.
  - intros k. unfold not_dir, disk_with. rewrite lookup_singleton_ne; [done|].
    intros E. by apply (output_file_ne_input k).
Qed.

Section RunTwice.

Variable json_load : string -> option pyval.
Variable json_dump : pyval -> Z -> string.

Local Abbreviation script := (main json_load json_dump).

(** C8. On a valid input with nothing in the way, a run followed by a
    second run on the disk the first one left: both return, the second
    dumps the same objects to the same paths, and leaves the disk, with
    every chunk file, exactly as the first left it. *)
Theorem rerun_identical fs d artists :
  loads json_load fs d artists -> unobstructed fs ->
  res (script fs) = Ok tt /\
  res (script (disk (script fs))) = Ok tt /\
  disk (script (disk (script fs))) = disk (script fs) /\
  dumped (trace (script (disk (script fs)))) = dumped (trace (script fs)).
Proof.
  intros Hload Hfree. rewrite (main_runs _ _ _ _ _ Hload Hfree).
  cbn [res disk trace]. split; [done|].
  set (js := seq 0 (turns (len artists))).
  set (D0 := with_dirs fs OUTPUT_DIR).
  set (D1 := foldl (write_chunk json_dump (metadata_of d) artists) D0 js).
  assert (forall p, p ∈ path_prefixes OUTPUT_DIR -> D1 !! p = Some Dir) as Hdirs.
  { intros p Hp. unfold D1. rewrite foldl_write_other.
    - apply foldl_ensure_dir_made; [apply Hfree|done].
    - intros k <-. by apply (output_file_not_prefix k). }
  assert (loads json_load D1 d artists) as Hload1.
  { destruct Hload as (text & Hin & Hrest). exists text. split; [|done].
    unfold D1. rewrite foldl_write_other.
    - unfold D0. by rewrite with_dirs_input.
    - apply output_file_ne_input. }
  assert (unobstructed D1) as Hfree1.
  { split.
    - intros p Hp c. by rewrite (Hdirs p Hp).
    - intros k. apply foldl_write_not_dir. unfold not_dir, D0.
      rewrite with_dirs_output. apply Hfree. }
  rewrite (main_runs _ _ _ _ _ Hload1 Hfree1). cbn [res disk trace].
  split; [done|]. split.
  - unfold with_dirs. rewrite foldl_ensure_dir_id by done.
    apply foldl_write_twice.
  - unfold js. by rewrite !dumped_run_events.
Qed.

(** C6, as amended. On an input that loads to a dict, every chunk a run
    writes carries each top-level key of the input other than
    ['artists'], ['chunk_index'], ['chunk_artist_count'] and
    ['total_artist_count'] with the value the input gives it, and has no
    key besides those of the input and these four; and with nothing in
    the way the run returns and writes as many chunks as the ceiling of
    the number of artists over 60000. *)
Theorem metadata_carried fs d artists :
  loads json_load fs d artists -> is_dict d ->
  (forall obj, obj ∈ (dumped (trace (script fs))).*2 ->
    (forall k v,
        k ∉ ["chunk_index"; "chunk_artist_count"; "total_artist_count"; "artists"] ->
        dict_get d k = Some v -> field obj k = Some v) /\
    (forall k,
        is_Some (field obj k) ->
        k ∈ ["chunk_index"; "chunk_artist_count"; "total_artist_count"; "artists"] \/
        is_Some (dict_get d k))) /\
  (unobstructed fs ->
   res (script fs) = Ok tt /\
   (len artists <= len (dumped (trace (script fs))) * 60000
                < len artists + 60000)).
Proof.
  intros Hload Hdict. split; cycle 1.
  { intros Hfree. rewrite (main_runs _ _ _ _ _ Hload Hfree).
    cbn [res trace]. split; [done|].
    rewrite dumped_run_events. apply len_chunks_of_bounds. }
  intros obj Hobj.
  destruct (main_dumps json_load json_dump fs d artists Hload)
    as (m' & _ & Hd & _).
  rewrite Hd, chunks_of_objs in Hobj.
  apply list_elem_of_fmap in Hobj as (j & -> & _). unfold nth_chunk.
  assert (forall k,
    k ∉ ["chunk_index"; "chunk_artist_count"; "total_artist_count"; "artists"] ->
    dict_get (metadata_of d) k = dict_get d k) as Hmd.
  { intros k Hk. unfold metadata_of.
    rewrite dict_of_items_NoDup by (by apply NoDup_keys_filter).
    apply dict_get_filter_ne. intros <-. apply Hk.
    rewrite !elem_of_cons. auto. }
  split.
  - intros k v Hk Hv. rewrite field_other by done. by rewrite Hmd.
  - intros k Hk.
    destruct (decide (k ∈ ["chunk_index"; "chunk_artist_count";
                           "total_artist_count"; "artists"])) as [Hin|Hout];
      [by left|right].
    rewrite field_other in Hk by done. by rewrite <- Hmd.
Qed.

End RunTwice.

(** ** File names *)

Lemma format_02d_small (k : Z) :
  0 <= k < 100 -> format_02d k = two_digits k.
Proof.
  intros Hk. assert (exists i : nat, (i < 100)%nat /\ k = Z.of_nat i) as (i & Hi & ->).
  { exists (Z.to_nat k). lia. }
  clear Hk. do 100 (destruct i as [|i]; [reflexivity|]). lia.
Qed.

Ltac split_uint u :=
  destruct u as [|u|u|u|u|u|u|u|u|u|u].

Lemma decimal_length_large (k : Z) :
  100 <= k -> (3 <= String.length (decimal k))%nat.
Proof.
  intros Hk. unfold decimal.
  assert (100 <= Z.to_N k)%N as Hn by lia.
  pose proof (DecimalN.Unsigned.of_to (Z.to_N k)) as Hof.
  revert Hn Hof. generalize (Z.to_N k) as n. intros n Hn.
  generalize (N.to_uint n) as u. intros u Hof.
  split_uint u; [exfalso; vm_compute in Hof; lia|..];
    (split_uint u; [exfalso; vm_compute in Hof; lia|..]);
    (split_uint u; [exfalso; vm_compute in Hof; lia|..]);
    simpl; lia.
Qed.

Lemma format_02d_large (k : Z) : 100 <= k -> format_02d k = decimal k.
Proof.
  intros Hk. unfold format_02d. destruct (Z.ltb_spec k 0); [lia|].
  unfold zfill. pose proof (decimal_length_large k Hk) as Hlen.
  by replace (2 - String.length (decimal k))%nat with 0%nat by lia.
Qed.

Lemma output_file_small (k : Z) :
  0 <= k < 100 ->
  output_file k = OUTPUT_DIR +:+ "/chunk-" +:+ two_digits k +:+ ".json".
Proof. intros Hk. rewrite output_file_eq, format_02d_small by done. reflexivity. Qed.

Lemma output_file_large (k : Z) :
  100 <= k ->
  output_file k = OUTPUT_DIR +:+ "/chunk-" +:+ decimal k +:+ ".json".
Proof. intros Hk. rewrite output_file_eq, format_02d_large by done. reflexivity. Qed.

Section Names.

Variable json_load : string -> option pyval.
Variable json_dump : pyval -> Z -> string.

Local Abbreviation script := (main json_load json_dump).

(** C7, as amended. On a valid input with nothing in the way the run
    returns and writes as many chunks as the ceiling of the number of
    artists over 60000, and the chunk it writes in place [j] (from 0) has
    ['chunk_index'] [j] and goes to the file [chunk-<NN>.json] of the
    output directory, where [<NN>] is [j] in decimal, filled with zeros to
    two digits: the two digits of [j] when [j] is below 100, and all the
    digits of [j], three or more, from 100 on. *)
Theorem chunk_file_names fs d artists :
  loads json_load fs d artists -> unobstructed fs ->
  res (script fs) = Ok tt /\
  (len artists <= len (dumped (trace (script fs))) * 60000
               < len artists + 60000) /\
  forall (j : nat) p obj,
    dumped (trace (script fs)) !! j = Some (p, obj) ->
    field obj "chunk_index" = Some (PInt (Z.of_nat j)) /\
    ((j < 100)%nat ->
     p = OUTPUT_DIR +:+ "/chunk-" +:+ two_digits (Z.of_nat j) +:+ ".json") /\
    ((100 <= j)%nat ->
     p = OUTPUT_DIR +:+ "/chunk-" +:+ decimal (Z.of_nat j) +:+ ".json" /\
     (3 <= String.length (decimal (Z.of_nat j)))%nat).
Proof.
  intros Hload Hfree. rewrite (main_runs _ _ _ _ _ Hload Hfree).
  cbn [res trace]. split; [done|]. rewrite dumped_run_events.
  split; [apply len_chunks_of_bounds|].
  intros j p obj (Hj & -> & ->)%chunks_of_lookup. split_and!.
  - apply field_chunk_index.
  - intros Hlt. apply output_file_small. lia.
  - intros Hge. split; [apply output_file_large|apply decimal_length_large]; lia.
Qed.

End Names.

(** ** The claims at work *)

Lemma sample_artists_dict : is_dict sample_artists.
Proof.
  unfold is_dict. apply (bool_decide_unpack _). by vm_compute.
Qed.

Lemma sample_items_dict : is_dict sample_items.
Proof.
  unfold is_dict. apply (bool_decide_unpack _). by vm_compute.
Qed.

Lemma sample_loads : loads sample_load sample_fs sample_items sample_artists.
Proof. by apply disk_with_loads. Qed.

Lemma many_artists_len : len many_artists = 6000001.
Proof.
  unfold len, many_artists. rewrite length_fmap, length_seq. lia.
Qed.

Lemma empty_loads : loads empty_load empty_fs empty_items [].
Proof. by apply disk_with_loads. Qed.

Lemma clash_loads : loads clash_load clash_fs clash_items [("a1", PNone)].
Proof. by apply disk_with_loads. Qed.

Lemma many_loads : loads many_load many_fs many_items many_artists.
Proof. by apply disk_with_loads. Qed.

(** C6, as the specification words it, fails: a top-level key named
    ['chunk_index'] with the value ['x'] comes out of the only chunk with
    the value 0. *)
Lemma metadata_key_overwritten :
  loads clash_load clash_fs clash_items [("a1", PNone)] /\
  dict_get clash_items "chunk_index" = Some (PStr "x") /\
  exists obj,
    obj ∈ (dumped (trace (main clash_load sample_dump clash_fs))).*2 /\
    field obj "chunk_index" = Some (PInt 0) /\
    field obj "chunk_index" <> dict_get clash_items "chunk_index".
Proof.
  split; [apply clash_loads|]. split; [reflexivity|].
  eexists. split; [vm_compute; left|]. split; [reflexivity|discriminate].
Qed.

(** With more than 6,000,000 artists a run writes a chunk of index 100. *)
Lemma chunk_100_written json_load json_dump fs d artists :
  loads json_load fs d artists -> unobstructed fs ->
  6000000 < len artists ->
  (dumped (trace (main json_load json_dump fs))).*1 !! 100%nat =
  Some (output_file 100).
Proof.
  intros Hload Hfree Hlen. rewrite (main_runs _ _ _ _ _ Hload Hfree).
  cbn [trace]. rewrite dumped_run_events.
  unfold chunks_of. rewrite <- list_fmap_compose, list_lookup_fmap.
  rewrite lookup_seq_lt; [done|].
  pose proof (turns_bounds (len artists) (len_nonneg _)) as Hb.
  unfold CHUNK_SIZE in Hb. lia.
Qed.

(** C7, as the specification words it, fails: with 6,000,001 artists the
    run writes a chunk of index 100, and its file has three digits in its
    name. *)
Lemma chunk_name_three_digits :
  loads many_load many_fs many_items many_artists /\
  unobstructed many_fs /\
  len many_artists = 6000001 /\
  exists p,
    (dumped (trace (main many_load sample_dump many_fs))).*1 !! 100%nat = Some p /\
    p = "client/data/musicbrainz-enriched-chunks/chunk-100.json" /\
    forall a b : ascii,
      p <> OUTPUT_DIR +:+ "/chunk-" +:+ String a (String b "") +:+ ".json".
Proof.
  split; [exact many_loads|]. split; [exact (disk_with_unobstructed "many")|].
  split; [exact many_artists_len|].
  exists (output_file 100). split; [|split].
  - apply (chunk_100_written many_load sample_dump many_fs many_items
             many_artists many_loads (disk_with_unobstructed "many")).
    rewrite many_artists_len. lia.
  - reflexivity.
  - intros a b. discriminate.
Qed.

(** C1 on the sample document. *)
Lemma chunks_partition_artists_witness :
  loads sample_load sample_fs sample_items sample_artists /\
  is_dict sample_artists /\
  unobstructed sample_fs /\
  res (main sample_load sample_dump sample_fs) = Ok tt /\
  concat (artists_of <$> (dumped (trace (main sample_load sample_dump sample_fs))).*2)
  = sample_artists /\
  (forall (j : nat) obj,
      (dumped (trace (main sample_load sample_dump sample_fs))).*2 !! j = Some obj ->
      field obj "chunk_index" = Some (PInt (Z.of_nat j))).
Proof.
  split; [apply sample_loads|]. split; [apply sample_artists_dict|].
  split; [apply disk_with_unobstructed|].
  apply (chunks_partition_artists sample_load sample_dump sample_fs
           sample_items sample_artists).
  - apply sample_loads.
  - apply sample_artists_dict.
  - apply disk_with_unobstructed.
Defined.

(** C2 on the sample document. *)
Lemma chunk_indices_contiguous_witness :
  loads sample_load sample_fs sample_items sample_artists /\
  unobstructed sample_fs /\
  res (main sample_load sample_dump sample_fs) = Ok tt /\
  exists m : nat,
    length (dumped (trace (main sample_load sample_dump sample_fs))) = m /\
    (len sample_artists <= Z.of_nat m * 60000 < len sample_artists + 60000) /\
    ((fun obj => field obj "chunk_index") <$>
       (dumped (trace (main sample_load sample_dump sample_fs))).*2) =
    ((fun j : nat => Some (PInt (Z.of_nat j))) <$> seq 0 m).
Proof.
  split; [apply sample_loads|]. split; [apply disk_with_unobstructed|].
  apply (chunk_indices_contiguous sample_load sample_dump sample_fs
           sample_items sample_artists).
  - apply sample_loads.
  - apply disk_with_unobstructed.
Defined.

(** C3 on the sample document. *)
Lemma chunk_sizes_witness :
  loads sample_load sample_fs sample_items sample_artists /\
  is_dict sample_artists /\
  unobstructed sample_fs /\
  res (main sample_load sample_dump sample_fs) = Ok tt /\
  (len sample_artists
     <= len (dumped (trace (main sample_load sample_dump sample_fs))) * 60000
     < len sample_artists + 60000) /\
  forall (j : nat) obj,
    (dumped (trace (main sample_load sample_dump sample_fs))).*2 !! j = Some obj ->
    ((S j < length (dumped (trace (main sample_load sample_dump sample_fs))))%nat ->
     len (artists_of obj) = CHUNK_SIZE) /\
    (S j = length (dumped (trace (main sample_load sample_dump sample_fs))) ->
     len (artists_of obj) =
     if len sample_artists mod CHUNK_SIZE =? 0 then CHUNK_SIZE
     else len sample_artists mod CHUNK_SIZE).
Proof.
  split; [apply sample_loads|]. split; [apply sample_artists_dict|].
  split; [apply disk_with_unobstructed|].
  apply (chunk_sizes sample_load sample_dump sample_fs
           sample_items sample_artists).
  - apply sample_loads.
  - apply sample_artists_dict.
  - apply disk_with_unobstructed.
Defined.

(** C4 on the sample document, whose run writes one chunk. *)
Lemma chunk_counts_witness :
  loads sample_load sample_fs sample_items sample_artists /\
  unobstructed sample_fs /\
  (exists obj,
      (dumped (trace (main sample_load sample_dump sample_fs))).*2 = [obj] /\
      field obj "total_artist_count" = Some (PInt 3) /\
      field obj "chunk_artist_count" = Some (PInt 3)) /\
  res (main sample_load sample_dump sample_fs) = Ok tt /\
  (len sample_artists
     <= len (dumped (trace (main sample_load sample_dump sample_fs))) * 60000
     < len sample_artists + 60000) /\
  (sample_artists <> [] ->
   dumped (trace (main sample_load sample_dump sample_fs)) <> []) /\
  forall obj,
    obj ∈ (dumped (trace (main sample_load sample_dump sample_fs))).*2 ->
    field obj "total_artist_count" = Some (PInt (len sample_artists)) /\
    exists a, field obj "artists" = Some (PDict a) /\
              field obj "chunk_artist_count" = Some (PInt (len a)).
Proof.
  split; [apply sample_loads|]. split; [apply disk_with_unobstructed|].
  split; [eexists; split; [by vm_compute|]; split; reflexivity|].
  apply (chunk_counts sample_load sample_dump sample_fs
           sample_items sample_artists).
  - apply sample_loads.
  - apply disk_with_unobstructed.
Defined.

(** C5 on the empty disk. *)
Lemma missing_input_exits_witness :
  (∅ : gmap string node) !! INPUT_FILE = None /\
  res (main sample_load sample_dump ∅) = Raise (SystemExit 1) /\
  exit_status (res (main sample_load sample_dump ∅)) <> 0 /\
  disk (main sample_load sample_dump ∅) = ∅ /\
  (forall p, Makedirs p ∉ trace (main sample_load sample_dump ∅)) /\
  dumped (trace (main sample_load sample_dump ∅)) = [].
Proof.
  split; [apply lookup_empty|].
  apply (missing_input_exits sample_load sample_dump ∅).
  apply lookup_empty.
Defined.

(** C6, as amended, on the sample document. *)
Lemma metadata_carried_witness :
  loads sample_load sample_fs sample_items sample_artists /\
  is_dict sample_items /\
  unobstructed sample_fs /\
  (exists obj,
      (dumped (trace (main sample_load sample_dump sample_fs))).*2 = [obj] /\
      field obj "version" = Some (PInt 3) /\
      field obj "source" = Some (PStr "musicbrainz")) /\
  (forall obj,
    obj ∈ (dumped (trace (main sample_load sample_dump sample_fs))).*2 ->
    (forall k v,
        k ∉ ["chunk_index"; "chunk_artist_count"; "total_artist_count"; "artists"] ->
        dict_get sample_items k = Some v -> field obj k = Some v) /\
    (forall k,
        is_Some (field obj k) ->
        k ∈ ["chunk_index"; "chunk_artist_count"; "total_artist_count"; "artists"] \/
        is_Some (dict_get sample_items k))) /\
  (unobstructed sample_fs ->
   res (main sample_load sample_dump sample_fs) = Ok tt /\
   (len sample_artists
      <= len (dumped (trace (main sample_load sample_dump sample_fs))) * 60000
      < len sample_artists + 60000)).
Proof.
  split; [apply sample_loads|]. split; [apply sample_items_dict|].
  split; [apply disk_with_unobstructed|].
  split; [eexists; split; [by vm_compute|]; split; reflexivity|].
  apply (metadata_carried sample_load sample_dump sample_fs
           sample_items sample_artists).
  - apply sample_loads.
  - apply sample_items_dict.
Defined.

(** C7, as amended, on the sample document. *)
Lemma chunk_file_names_witness :
  loads sample_load sample_fs sample_items sample_artists /\
  unobstructed sample_fs /\
  res (main sample_load sample_dump sample_fs) = Ok tt /\
  (len sample_artists
     <= len (dumped (trace (main sample_load sample_dump sample_fs))) * 60000
     < len sample_artists + 60000) /\
  forall (j : nat) p obj,
    dumped (trace (main sample_load sample_dump sample_fs)) !! j = Some (p, obj) ->
    field obj "chunk_index" = Some (PInt (Z.of_nat j)) /\
    ((j < 100)%nat ->
     p = OUTPUT_DIR +:+ "/chunk-" +:+ two_digits (Z.of_nat j) +:+ ".json") /\
    ((100 <= j)%nat ->
     p = OUTPUT_DIR +:+ "/chunk-" +:+ decimal (Z.of_nat j) +:+ ".json" /\
     (3 <= String.length (decimal (Z.of_nat j)))%nat).
Proof.
  split; [apply sample_loads|]. split; [apply disk_with_unobstructed|].
  apply (chunk_file_names sample_load sample_dump sample_fs
           sample_items sample_artists).
  - apply sample_loads.
  - apply disk_with_unobstructed.
Defined.

(** C8 on the sample document. *)
Lemma rerun_identical_witness :
  loads sample_load sample_fs sample_items sample_artists /\
  unobstructed sample_fs /\
  res (main sample_load sample_dump sample_fs) = Ok tt /\
  res (main sample_load sample_dump
         (disk (main sample_load sample_dump sample_fs))) = Ok tt /\
  disk (main sample_load sample_dump
          (disk (main sample_load sample_dump sample_fs))) =
  disk (main sample_load sample_dump sample_fs) /\
  dumped (trace (main sample_load sample_dump
                   (disk (main sample_load sample_dump sample_fs)))) =
  dumped (trace (main sample_load sample_dump sample_fs)).
Proof.
  split; [apply sample_loads|]. split; [apply disk_with_unobstructed|].
  apply (rerun_identical sample_load sample_dump sample_fs
           sample_items sample_artists).
  - apply sample_loads.
  - apply disk_with_unobstructed.
Defined.

(** C9 on the document with no artists. *)
Lemma empty_artists_no_chunks_witness :
  loads empty_load empty_fs empty_items [] /\
  (forall p, p ∈ path_prefixes OUTPUT_DIR -> not_file empty_fs p) /\
  res (main empty_load sample_dump empty_fs) = Ok tt /\
  exit_status (res (main empty_load sample_dump empty_fs)) = 0 /\
  dumped (trace (main empty_load sample_dump empty_fs)) = [] /\
  Makedirs OUTPUT_DIR ∈ trace (main empty_load sample_dump empty_fs) /\
  disk (main empty_load sample_dump empty_fs) = with_dirs empty_fs OUTPUT_DIR /\
  disk (main empty_load sample_dump empty_fs) !! OUTPUT_DIR = Some Dir /\
  (forall q content,
      disk (main empty_load sample_dump empty_fs) !! q = Some (File content) <->
      empty_fs !! q = Some (File content)).
Proof.
  split; [apply empty_loads|].
  split; [apply (disk_with_unobstructed "empty")|].
  apply (empty_artists_no_chunks empty_load sample_dump empty_fs empty_items).
  - apply empty_loads.
  - apply (disk_with_unobstructed "empty").
Defined.

(** What the sample run leaves on the disk, for the record. *)
Example sample_run_files :
  (map_to_list (disk (main sample_load sample_dump sample_fs))).*1 ≡ₚ
  ["client"; "client/data"; "client/data/musicbrainz-artists-enriched.json";
   "client/data/musicbrainz-enriched-chunks";
   "client/data/musicbrainz-enriched-chunks/chunk-00.json"].
Proof. vm_compute. by apply (bool_decide_unpack _). Qed.

(** * Beyond the claims *)

(** ** Exceptions a computation can raise *)

Lemma disk_bind {A B} (m : M A) (f : A -> M B) fs :
  disk ((m ≫= f) fs) =
  match res (m fs) with
  | Ok a => disk (f a (disk (m fs)))
  | Raise e => disk (m fs)
  end.
Proof. unfold mbind, M_bind, bind. by destruct (res (m fs)). Qed.



Lemma only_ret {A} P (a : A) : only P (mret a).
Proof. by intros fs e. Qed.




Lemma only_makedirs (P : exn -> Prop) path :
  P FileExistsError -> P NotADirectoryError -> only P (os_makedirs path).
Proof.
  intros H1 H2 fs e. pose proof (makedirs_cases path fs) as H. cbv zeta in H.
  destruct H as [_ [[-> _]|[-> | ->]]]; [done|by intros [= <-]..].
Qed.


(** ** Paths a computation leaves alone *)

Lemma keeps_bind {A B} q (m : M A) (f : A -> M B) :
  keeps q m -> (forall a, keeps q (f a)) -> keeps q (m ≫= f).
Proof.
  intros Hm Hf fs. rewrite disk_bind.
  destruct (res (m fs)) as [a|e]; [by rewrite Hf|]; apply Hm.
Qed.

Lemma keeps_print q l : keeps q (print l).
Proof. by intros fs. Qed.

Lemma keeps_ret {A} q (a : A) : keeps q (mret a).
Proof. by intros fs. Qed.

Lemma keeps_raise {A} q e : keeps q (@raise A e).
Proof. by intros fs. Qed.

Lemma keeps_lift {A} q e (o : option A) : keeps q (lift e o).
Proof. destruct o; by intros fs. Qed.

Lemma keeps_items q v : keeps q (items v).
Proof. destruct v; by intros fs. Qed.

Lemma keeps_exists q path : keeps q (os_path_exists path).
Proof. by intros fs. Qed.

Lemma keeps_read_text q path : keeps q (read_text path).
Proof. intros fs. unfold read_text. by destruct (fs !! path) as [[|c]|]. Qed.

Lemma keeps_true_div q a b : keeps q (true_div a b).
Proof. intros fs. unfold true_div. by destruct (b =? 0). Qed.

Lemma keeps_for_each {A S} q (xs : list A) (body : A -> S -> M S) (s : S) :
  (forall x s', x ∈ xs -> keeps q (body x s')) -> keeps q (for_each xs body s).
Proof.
  revert s. induction xs as [|x xs IH]; intros s Hbody; [by intros fs|].
  cbn [for_each]. apply keeps_bind.
  - apply Hbody. by left.
  - intros s'. apply IH. intros y s'' Hy. apply Hbody. by right.
Qed.

Lemma keeps_mkdir q leaf p : p <> q -> keeps q (mkdir_exist_ok leaf p tt).
Proof.
  intros Hne fs. unfold mkdir_exist_ok.
  destruct (fs !! p) as [[|c]|]; simpl; [done..|].
  by rewrite lookup_insert_ne.
Qed.

Lemma keeps_makedirs q path : q ∉ path_prefixes path -> keeps q (os_makedirs path).
Proof.
  intros Hq. unfold os_makedirs. apply keeps_bind; [by intros fs|intros _].
  apply keeps_for_each. intros p [] Hp. apply keeps_mkdir. by intros ->.
Qed.

Lemma keeps_dump_to json_dump q path obj indent :
  path <> q -> keeps q (dump_to json_dump path obj indent).
Proof.
  intros Hne fs. unfold dump_to.
  destruct (fs !! path) as [[|c]|]; simpl; [done|by rewrite lookup_insert_ne..].
Qed.

Lemma keeps_loop_body json_dump q metadata artist_items total i k :
  output_file k <> q ->
  keeps q (loop_body json_dump metadata artist_items total i k).
Proof.
  intros Hne. unfold loop_body.
  apply keeps_bind; [by apply keeps_dump_to|intros _].
  apply keeps_bind; [apply keeps_true_div|intros ratio].
  apply keeps_bind; [apply keeps_print|intros _]. apply keeps_ret.
Qed.

Section Outcomes.

Variable json_load : string -> option pyval.
Variable json_dump : pyval -> Z -> string.


(** X2. Whatever the disk holds and whatever the [json] module does, a
    run, returning or not, leaves every path as it finds it, except the
    output directory, the directories above it and the chunk files; the
    input file is among the paths left alone. *)
Theorem run_keeps_other_paths fs q :
  q ∉ path_prefixes OUTPUT_DIR ->
  (forall k, output_file k <> q) ->
  disk (main json_load json_dump fs) !! q = fs !! q.
Proof.
  intros Hq Hout. revert fs. change (keeps q (main json_load json_dump)).
  unfold main.
  apply keeps_bind; [apply keeps_print|intros _].
  apply keeps_bind; [apply keeps_exists|intros found].
  apply keeps_bind.
  { destruct found; simpl; [apply keeps_ret|].
    apply keeps_bind; [apply keeps_print|intros _]. apply keeps_raise. }
  intros _.
  apply keeps_bind; [by apply keeps_makedirs|intros _].
  do 3 (apply keeps_bind; [apply keeps_print|intros _]).
  apply keeps_bind; [apply keeps_read_text|intros text].
  apply keeps_bind; [apply keeps_lift|intros data].
  apply keeps_bind; [apply keeps_items|intros data_items].
  apply keeps_bind; [apply keeps_lift|intros artists].
  apply keeps_bind; [apply keeps_items|intros artist_items].
  do 3 (apply keeps_bind; [apply keeps_print|intros _]).
  apply keeps_bind.
  { apply keeps_for_each. intros i k _. by apply keeps_loop_body. }
  intros chunk_index.
  do 3 (apply keeps_bind; [apply keeps_print|intros _]).
  apply keeps_print.
Qed.

End Outcomes.

(** X2 at the input file of the sample disk. *)
Lemma run_keeps_other_paths_witness :
  (INPUT_FILE ∉ path_prefixes OUTPUT_DIR) /\
  (forall k, output_file k <> INPUT_FILE) /\
  disk (main sample_load sample_dump sample_fs) !! INPUT_FILE =
  sample_fs !! INPUT_FILE.
Proof.
  split; [apply input_not_prefix|]. split; [apply output_file_ne_input|].
  apply (run_keeps_other_paths sample_load sample_dump sample_fs INPUT_FILE).
  - apply input_not_prefix.
  - apply output_file_ne_input.
Defined.

(** ** Inputs the script rejects *)

(** The run up to the reading of the input file. *)
Ltac read_input Hin Hnf :=
  unfold main;
  erewrite bind_step by reflexivity; cbv beta;
  erewrite bind_step by (by eapply os_path_exists_Some); cbv beta;
  simpl negb; cbv iota;
  erewrite bind_step by reflexivity; cbv beta;
  erewrite bind_step by (by apply makedirs_run); cbv beta;
  do 3 (erewrite bind_step by reflexivity; cbv beta).

Ltac read_text_of Hin :=
  erewrite bind_step by (apply read_text_File; by rewrite with_dirs_input);
  cbv beta.

Lemma with_dirs_made fs :
  (forall p, p ∈ path_prefixes OUTPUT_DIR -> not_file fs p) ->
  with_dirs fs OUTPUT_DIR !! OUTPUT_DIR = Some Dir.
Proof.
  intros Hnf. apply foldl_ensure_dir_made; [done|].
  rewrite prefixes_OUTPUT_DIR, !elem_of_cons. auto.
Qed.

Lemma stops_here fs e (t : list event) :
  (forall p, p ∈ path_prefixes OUTPUT_DIR -> not_file fs p) ->
  dumped t = [] ->
  stops_after_makedirs (mkRun (Raise e) (with_dirs fs OUTPUT_DIR) t) fs e.
Proof.
  intros Hnf Ht. unfold stops_after_makedirs. cbn [res disk trace].
  split_and!; [done..|by apply with_dirs_made].
Qed.

Section Rejected.

Variable json_load : string -> option pyval.
Variable json_dump : pyval -> Z -> string.

Local Abbreviation script := (main json_load json_dump).

(** X3. When the text of the input file does not decode, the run raises
    [ValueError]; by then it has made the output directory, and it
    writes no chunk. *)
Theorem undecodable_input fs text :
  fs !! INPUT_FILE = Some (File text) ->
  json_load text = None ->
  (forall p, p ∈ path_prefixes OUTPUT_DIR -> not_file fs p) ->
  stops_after_makedirs (script fs) fs ValueError.
Proof.
  intros Hin Hld Hnf. read_input Hin Hnf. read_text_of Hin.
  rewrite Hld. erewrite bind_raise by reflexivity.
  rewrite !prepend_prepend. by apply stops_here.
Qed.

(** X4. When the input decodes to a value that is not a dict (a list, a
    string, a number, ...), [data.items()] raises [AttributeError]; by
    then the output directory is made, and no chunk is written. *)
Theorem top_level_not_dict fs text v :
  fs !! INPUT_FILE = Some (File text) ->
  json_load text = Some v ->
  (forall d, v <> PDict d) ->
  (forall p, p ∈ path_prefixes OUTPUT_DIR -> not_file fs p) ->
  stops_after_makedirs (script fs) fs AttributeError.
Proof.
  intros Hin Hld Hv Hnf. read_input Hin Hnf. read_text_of Hin.
  rewrite Hld. erewrite bind_step by reflexivity. cbv beta.
  erewrite bind_raise; cycle 1.
  { destruct v; try reflexivity. by destruct (Hv d). }
  rewrite !prepend_prepend. by apply stops_here.
Qed.

(** X5. When the input is a dict without the key ['artists'], the run
    raises [KeyError 'artists']; by then the output directory is made,
    and no chunk is written. *)
Theorem missing_artists_key fs text d :
  fs !! INPUT_FILE = Some (File text) ->
  json_load text = Some (PDict d) ->
  dict_get d "artists" = None ->
  (forall p, p ∈ path_prefixes OUTPUT_DIR -> not_file fs p) ->
  stops_after_makedirs (script fs) fs (KeyError "artists").
Proof.
  intros Hin Hld Hart Hnf. read_input Hin Hnf. read_text_of Hin.
  rewrite Hld. do 2 (erewrite bind_step by reflexivity; cbv beta). cbv zeta.
  erewrite bind_raise by (unfold getitem; rewrite Hart; reflexivity).
  rewrite !prepend_prepend. by apply stops_here.
Qed.

(** X6. When the ['artists'] entry of the input is not a dict,
    [artists.items()] raises [AttributeError]; by then the output
    directory is made, and no chunk is written. *)
Theorem artists_not_dict fs text d v :
  fs !! INPUT_FILE = Some (File text) ->
  json_load text = Some (PDict d) ->
  dict_get d "artists" = Some v ->
  (forall a, v <> PDict a) ->
  (forall p, p ∈ path_prefixes OUTPUT_DIR -> not_file fs p) ->
  stops_after_makedirs (script fs) fs AttributeError.
Proof.
  intros Hin Hld Hart Hv Hnf. read_input Hin Hnf. read_text_of Hin.
  rewrite Hld. do 2 (erewrite bind_step by reflexivity; cbv beta). cbv zeta.
  erewrite bind_step by (unfold getitem; rewrite Hart; reflexivity). cbv beta.
  erewrite bind_raise; cycle 1.
  { destruct v; try reflexivity. by destruct (Hv d0). }
  rewrite !prepend_prepend. by apply stops_here.
Qed.

(** X7. When the input path is a directory the existence check passes,
    the output directory is made, and opening the input raises
    [IsADirectoryError]; no chunk is written. *)
Theorem input_is_directory fs :
  fs !! INPUT_FILE = Some Dir ->
  (forall p, p ∈ path_prefixes OUTPUT_DIR -> not_file fs p) ->
  stops_after_makedirs (script fs) fs IsADirectoryError.
Proof.
  intros Hin Hnf. read_input Hin Hnf.
  erewrite bind_raise; cycle 1.
  { unfold read_text. rewrite with_dirs_input, Hin. reflexivity. }
  rewrite !prepend_prepend. by apply stops_here.
Qed.

(** X8. When a file sits at the path of the output directory, under
    directories that exist, [os.makedirs] raises [FileExistsError]: the
    input is not read, nothing is written, and the disk is as it was. *)
Theorem output_dir_is_file fs n content :
  fs !! INPUT_FILE = Some n ->
  fs !! "client" = Some Dir ->
  fs !! "client/data" = Some Dir ->
  fs !! OUTPUT_DIR = Some (File content) ->
  res (script fs) = Raise FileExistsError /\
  disk (script fs) = fs /\
  dumped (trace (script fs)) = [].
Proof.
  intros Hin H1 H2 H3.
  assert (os_makedirs OUTPUT_DIR fs =
          mkRun (Raise FileExistsError) fs [Makedirs OUTPUT_DIR]) as Hmk.
  { unfold os_makedirs. erewrite bind_step by reflexivity. cbv beta.
    rewrite prefixes_OUTPUT_DIR. cbn [for_each].
    erewrite bind_step by (unfold mkdir_exist_ok; rewrite H1; reflexivity).
    cbv beta.
    erewrite bind_step by (unfold mkdir_exist_ok; rewrite H2; reflexivity).
    cbv beta.
    erewrite bind_raise; cycle 1.
    { unfold mkdir_exist_ok. unfold OUTPUT_DIR in H3. rewrite H3. reflexivity. }
    reflexivity. }
  unfold main.
  erewrite bind_step by reflexivity. cbv beta.
  erewrite bind_step by (by eapply os_path_exists_Some). cbv beta.
  simpl negb. cbv iota.
  erewrite bind_step by reflexivity. cbv beta.
  erewrite bind_raise by exact Hmk. done.
Qed.

End Rejected.

(** *** The rejected inputs at work *)

Lemma disk_with_no_file text p :
  p ∈ path_prefixes OUTPUT_DIR -> not_file (disk_with text) p.
Proof. apply (disk_with_unobstructed text). Qed.

Lemma input_dir_no_file p :
  p ∈ path_prefixes OUTPUT_DIR -> not_file input_dir_fs p.
Proof.
  intros Hp c. unfold input_dir_fs. rewrite lookup_singleton_ne; [done|].
  intros <-. by apply input_not_prefix.
Qed.

Lemma undecodable_input_witness :
  disk_with "garbage" !! INPUT_FILE = Some (File "garbage") /\
  sample_load "garbage" = None /\
  (forall p, p ∈ path_prefixes OUTPUT_DIR -> not_file (disk_with "garbage") p) /\
  stops_after_makedirs (main sample_load sample_dump (disk_with "garbage"))
    (disk_with "garbage") ValueError.
Proof.
  split; [apply lookup_singleton_eq|]. split; [reflexivity|].
  split; [apply disk_with_no_file|].
  apply (undecodable_input sample_load sample_dump (disk_with "garbage") "garbage").
  - apply lookup_singleton_eq.
  - reflexivity.
  - apply disk_with_no_file.
Defined.

Lemma top_level_not_dict_witness :
  disk_with "list" !! INPUT_FILE = Some (File "list") /\
  list_load "list" = Some (PList [PInt 1]) /\
  (forall d, PList [PInt 1] <> PDict d) /\
  (forall p, p ∈ path_prefixes OUTPUT_DIR -> not_file (disk_with "list") p) /\
  stops_after_makedirs (main list_load sample_dump (disk_with "list"))
    (disk_with "list") AttributeError.
Proof.
  split; [apply lookup_singleton_eq|]. split; [reflexivity|].
  split; [discriminate|]. split; [apply disk_with_no_file|].
  apply (top_level_not_dict list_load sample_dump (disk_with "list") "list"
           (PList [PInt 1])).
  - apply lookup_singleton_eq.
  - reflexivity.
  - discriminate.
  - apply disk_with_no_file.
Defined.

Lemma missing_artists_key_witness :
  disk_with "no artists" !! INPUT_FILE = Some (File "no artists") /\
  no_artists_load "no artists" = Some (PDict [("version", PInt 3)]) /\
  dict_get [("version", PInt 3)] "artists" = None /\
  (forall p, p ∈ path_prefixes OUTPUT_DIR ->
             not_file (disk_with "no artists") p) /\
  stops_after_makedirs (main no_artists_load sample_dump (disk_with "no artists"))
    (disk_with "no artists") (KeyError "artists").
Proof.
  split; [apply lookup_singleton_eq|]. split; [reflexivity|].
  split; [reflexivity|]. split; [apply disk_with_no_file|].
  apply (missing_artists_key no_artists_load sample_dump
           (disk_with "no artists") "no artists" [("version", PInt 3)]).
  - apply lookup_singleton_eq.
  - reflexivity.
  - reflexivity.
  - apply disk_with_no_file.
Defined.

Lemma artists_not_dict_witness :
  disk_with "artists list" !! INPUT_FILE = Some (File "artists list") /\
  artists_list_load "artists list" =
    Some (PDict [("artists", PList [PStr "a1"])]) /\
  dict_get [("artists", PList [PStr "a1"])] "artists" = Some (PList [PStr "a1"]) /\
  (forall a, PList [PStr "a1"] <> PDict a) /\
  (forall p, p ∈ path_prefixes OUTPUT_DIR ->
             not_file (disk_with "artists list") p) /\
  stops_after_makedirs
    (main artists_list_load sample_dump (disk_with "artists list"))
    (disk_with "artists list") AttributeError.
Proof.
  split; [apply lookup_singleton_eq|]. split; [reflexivity|].
  split; [reflexivity|]. split; [discriminate|].
  split; [apply disk_with_no_file|].
  apply (artists_not_dict artists_list_load sample_dump
           (disk_with "artists list") "artists list"
           [("artists", PList [PStr "a1"])] (PList [PStr "a1"])).
  - apply lookup_singleton_eq.
  - reflexivity.
  - reflexivity.
  - discriminate.
  - apply disk_with_no_file.
Defined.

Lemma input_is_directory_witness :
  input_dir_fs !! INPUT_FILE = Some Dir /\
  (forall p, p ∈ path_prefixes OUTPUT_DIR -> not_file input_dir_fs p) /\
  stops_after_makedirs (main sample_load sample_dump input_dir_fs)
    input_dir_fs IsADirectoryError.
Proof.
  split; [apply lookup_singleton_eq|]. split; [apply input_dir_no_file|].
  apply (input_is_directory sample_load sample_dump input_dir_fs).
  - apply lookup_singleton_eq.
  - apply input_dir_no_file.
Defined.

Lemma output_dir_is_file_witness :
  blocked_output_fs !! INPUT_FILE = Some (File "sample") /\
  blocked_output_fs !! "client" = Some Dir /\
  blocked_output_fs !! "client/data" = Some Dir /\
  blocked_output_fs !! OUTPUT_DIR = Some (File "not a directory") /\
  res (main sample_load sample_dump blocked_output_fs) = Raise FileExistsError /\
  disk (main sample_load sample_dump blocked_output_fs) = blocked_output_fs /\
  dumped (trace (main sample_load sample_dump blocked_output_fs)) = [].
Proof.
  assert (blocked_output_fs !! INPUT_FILE = Some (File "sample")) as H0
    by (by vm_compute).
  assert (blocked_output_fs !! "client" = Some Dir) as H1 by (by vm_compute).
  assert (blocked_output_fs !! "client/data" = Some Dir) as H2 by (by vm_compute).
  assert (blocked_output_fs !! OUTPUT_DIR = Some (File "not a directory")) as H3
    by (by vm_compute).
  split; [exact H0|]. split; [exact H1|]. split; [exact H2|]. split; [exact H3|].
  exact (output_dir_is_file sample_load sample_dump blocked_output_fs
           (File "sample") "not a directory" H0 H1 H2 H3).
Defined.

(** ** One file for each chunk *)

Lemma string_length_app (a b : string) :
  String.length (a +:+ b) = (String.length a + String.length b)%nat.
Proof. induction a as [|c a IH]; simpl; [done|]. by rewrite IH. Qed.

Lemma append_inv_tail (a b s : string) : a +:+ s = b +:+ s -> a = b.
Proof.
  revert b. induction a as [|c a IH]; intros [|c' b] H; simpl in H.
  - done.
  - apply (f_equal String.length) in H.
    rewrite !string_length_app in H. simpl in H. lia.
  - apply (f_equal String.length) in H.
    rewrite !string_length_app in H. simpl in H. lia.
  - change (String c (a +:+ s) = String c' (b +:+ s)) in H.
    injection H as -> H. f_equal. by apply IH.
Qed.

Lemma decimal_read_back (n : N) :
  match NilZero.uint_of_string (NilZero.string_of_uint (N.to_uint n)) with
  | Some d => N.of_uint d
  | None => 0%N
  end = n.
Proof.
  pose proof (DecimalN.Unsigned.of_to n) as Hof.
  destruct (N.to_uint n) as [|u|u|u|u|u|u|u|u|u|u] eqn:E;
    [by rewrite NilZero.usu_nil|rewrite NilZero.usu by done; exact Hof..].
Qed.

Lemma decimal_inj (k1 k2 : Z) :
  0 <= k1 -> 0 <= k2 -> decimal k1 = decimal k2 -> k1 = k2.
Proof.
  intros H1 H2 Heq. unfold decimal in Heq.
  pose proof (decimal_read_back (Z.to_N k1)) as E1.
  pose proof (decimal_read_back (Z.to_N k2)) as E2.
  rewrite Heq in E1. rewrite E1 in E2. by apply Z2N.inj.
Qed.

Lemma digit_inj (a b : Z) :
  0 <= a < 10 -> 0 <= b < 10 -> digit a = digit b -> a = b.
Proof.
  intros Ha Hb Heq. unfold digit in Heq.
  apply (f_equal nat_of_ascii) in Heq.
  rewrite !nat_ascii_embedding in Heq by lia. lia.
Qed.

Lemma two_digits_inj (k1 k2 : Z) :
  0 <= k1 < 100 -> 0 <= k2 < 100 -> two_digits k1 = two_digits k2 -> k1 = k2.
Proof.
  intros H1 H2 Heq. unfold two_digits in Heq. injection Heq as Ht Hu.
  apply digit_inj in Hu; [|apply Z.mod_pos_bound; lia..].
  apply digit_inj in Ht; [|split; [apply Z.div_pos|apply Z.div_lt_upper_bound]; lia..].
  rewrite (Z.div_mod k1 10), (Z.div_mod k2 10) by lia. lia.
Qed.

Lemma format_02d_inj (k1 k2 : Z) :
  0 <= k1 -> 0 <= k2 -> format_02d k1 = format_02d k2 -> k1 = k2.
Proof.
  intros H1 H2 Heq.
  destruct (Z.lt_ge_cases k1 100) as [L1|G1], (Z.lt_ge_cases k2 100) as [L2|G2].
  - rewrite !format_02d_small in Heq by lia. apply two_digits_inj; [lia..|done].
  - rewrite format_02d_small, format_02d_large in Heq by lia.
    pose proof (decimal_length_large k2 G2) as Hlen.
    rewrite <- Heq in Hlen. simpl in Hlen. lia.
  - rewrite format_02d_large, format_02d_small in Heq by lia.
    pose proof (decimal_length_large k1 G1) as Hlen.
    rewrite Heq in Hlen. simpl in Hlen. lia.
  - rewrite !format_02d_large in Heq by lia. by apply decimal_inj.
Qed.

(** X9. Chunks of different indices go to different files, also past
    index 99, where the names grow a digit. *)
Theorem output_file_distinct (k1 k2 : Z) :
  0 <= k1 -> 0 <= k2 -> k1 <> k2 -> output_file k1 <> output_file k2.
Proof.
  intros H1 H2 Hne Heq. apply Hne. rewrite !output_file_eq in Heq.
  apply String.app_inj in Heq. apply append_inv_tail in Heq.
  by apply format_02d_inj.
Qed.

Lemma output_file_distinct_witness :
  0 <= 7 /\ 0 <= 100 /\ 7 <> 100 /\ output_file 7 <> output_file 100.
Proof.
  split; [lia|]. split; [lia|]. split; [lia|].
  apply (output_file_distinct 7 100); lia.
Defined.

Section Files.

Variable json_load : string -> option pyval.
Variable json_dump : pyval -> Z -> string.

Variables metadata artist_items : dict.

Local Abbreviation body := (loop_body json_dump metadata artist_items (len artist_items)).
Local Abbreviation write := (write_chunk json_dump metadata artist_items).
Local Abbreviation events := (turn_events metadata artist_items).

Lemma foldl_write_skip (js : list nat) fs q :
  (forall j, j ∈ js -> output_file (Z.of_nat j) <> q) ->
  foldl write fs js !! q = fs !! q.
Proof.
  revert fs. induction js as [|j js IH]; intros fs Hq; simpl; [done|].
  rewrite IH by (intros j' Hj'; apply Hq; by right).
  unfold write_chunk. rewrite lookup_insert_ne; [done|]. apply Hq. by left.
Qed.

Lemma foldl_write_lookup (js : list nat) fs (j : nat) :
  NoDup js -> j ∈ js ->
  foldl write fs js !! output_file (Z.of_nat j) =
  Some (File (json_dump (PDict (nth_chunk metadata artist_items j)) 2)).
Proof.
  revert fs. induction js as [|j0 js IH]; intros fs Hnd Hj.
  - by apply elem_of_nil in Hj.
  - apply NoDup_cons in Hnd as [Hj0 Hnd]. simpl.
    destruct (decide (j ∈ js)) as [Hin|Hout]; [by apply IH|].
    apply elem_of_cons in Hj as [->|]; [|done].
    rewrite foldl_write_skip.
    + unfold write_chunk. by rewrite lookup_insert_eq.
    + intros j' Hj'. apply output_file_distinct; [lia..|].
      intros Heq. apply Nat2Z.inj in Heq as ->. done.
Qed.

(** The loop from turn [a] on, with a directory where the chunk file of
    turn [a + k] goes and none before: it stops there. *)
Lemma loop_stops (k m a : nat) fs :
  (k < m)%nat -> len artist_items <> 0 ->
  (forall j, (j < k)%nat -> not_dir fs (output_file (Z.of_nat (a + j)))) ->
  fs !! output_file (Z.of_nat (a + k)) = Some Dir ->
  for_each (starts a m) body (Z.of_nat a) fs =
  mkRun (Raise IsADirectoryError) (foldl write fs (seq a k))
        (concat (events <$> seq a k)).
Proof.
  revert m a fs. induction k as [|k IH]; intros m a fs Hkm Hn Hfree Hdir;
    (destruct m as [|m]; [lia|]); unfold starts; cbn [seq fmap list_fmap for_each].
  - rewrite Nat.add_0_r in Hdir.
    erewrite bind_raise by (by apply loop_body_Dir). done.
  - erewrite bind_step; cycle 1.
    { apply loop_body_Ok; [done|]. specialize (Hfree 0%nat ltac:(lia)).
      by rewrite Nat.add_0_r in Hfree. }
    assert (output_file (Z.of_nat a) <> output_file (Z.of_nat (a + S k))) as Hne.
    { intros Heq. specialize (Hfree 0%nat ltac:(lia)).
      rewrite Nat.add_0_r in Hfree. apply Hfree. by rewrite Heq. }
    fold (starts (S a) m). rewrite (IH m (S a) (write fs a)); [done|lia|done| |].
    + intros j Hj. replace (S a + j)%nat with (a + S j)%nat by lia.
      specialize (Hfree (S j) ltac:(lia)). unfold not_dir, write_chunk in *.
      destruct (decide (output_file (Z.of_nat a) =
                        output_file (Z.of_nat (a + S j)))) as [<-|Hne'].
      * by rewrite lookup_insert_eq.
      * by rewrite lookup_insert_ne.
    + replace (S a + k)%nat with (a + S k)%nat by lia.
      unfold write_chunk. by rewrite lookup_insert_ne.
Qed.

End Files.

Section OnDisk.

Variable json_load : string -> option pyval.
Variable json_dump : pyval -> Z -> string.

Local Abbreviation script := (main json_load json_dump).

(** X10. After a run on a valid input with nothing in the way, every
    chunk the run dumped is on the disk, at the path it was dumped to, as
    the text [json.dump] gives for it with indent 2: no later chunk
    replaced it. *)
Theorem chunk_files_on_disk fs d artists :
  loads json_load fs d artists -> unobstructed fs ->
  forall p obj,
    (p, obj) ∈ dumped (trace (script fs)) ->
    disk (script fs) !! p = Some (File (json_dump obj 2)).
Proof.
  intros Hload Hfree p obj. rewrite (main_runs _ _ _ _ _ Hload Hfree).
  cbn [disk trace]. rewrite dumped_run_events. unfold chunks_of.
  intros (j & [= -> ->] & Hj)%list_elem_of_fmap.
  apply foldl_write_lookup; [apply NoDup_seq|done].
Qed.

(** X11. When a directory sits where chunk number [k] goes, and none
    where an earlier chunk goes, the run raises [IsADirectoryError] on
    that chunk; the [k] chunks before it are written and stay on the
    disk, and no later chunk is written. *)
Theorem blocked_chunk_keeps_earlier fs d artists (k : nat) :
  loads json_load fs d artists ->
  (forall p, p ∈ path_prefixes OUTPUT_DIR -> not_file fs p) ->
  (k < turns (len artists))%nat ->
  fs !! output_file (Z.of_nat k) = Some Dir ->
  (forall j, (j < k)%nat -> not_dir fs (output_file (Z.of_nat j))) ->
  res (script fs) = Raise IsADirectoryError /\
  dumped (trace (script fs)) = chunks_of d artists k /\
  forall j, (j < k)%nat ->
    disk (script fs) !! output_file (Z.of_nat j) =
    Some (File (json_dump (PDict (nth_chunk (metadata_of d) artists j)) 2)).
Proof.
  intros (text & Hin & Hld & Hart) Hnf Hk Hdir Hfree.
  erewrite main_loop; [|done|by apply makedirs_run| |done..].
  2: by rewrite with_dirs_input.
  rewrite range_chunks by apply len_nonneg.
  fold (starts 0 (turns (len artists))).
  erewrite bind_raise; cycle 1.
  { apply (loop_stops json_dump (metadata_of d) artists k _ 0%nat).
    - done.
    - apply turns_zero. lia.
    - intros j Hj. unfold not_dir. rewrite with_dirs_output. by apply Hfree.
    - by rewrite with_dirs_output. }
  unfold prepend. cbn [res disk trace]. split; [done|]. split.
  - rewrite dumped_app, dumped_turns.
    change (dumped (prologue_events _)) with (@nil (string * pyval)). done.
  - intros j Hj. apply foldl_write_lookup; [apply NoDup_seq|].
    apply elem_of_seq. lia.
Qed.

End OnDisk.

Lemma chunk_files_on_disk_witness :
  loads sample_load sample_fs sample_items sample_artists /\
  unobstructed sample_fs /\
  forall p obj,
    (p, obj) ∈ dumped (trace (main sample_load sample_dump sample_fs)) ->
    disk (main sample_load sample_dump sample_fs) !! p =
    Some (File (sample_dump obj 2)).
Proof.
  split; [apply sample_loads|]. split; [apply disk_with_unobstructed|].
  apply (chunk_files_on_disk sample_load sample_dump sample_fs
           sample_items sample_artists).
  - apply sample_loads.
  - apply disk_with_unobstructed.
Defined.

Lemma blocked_chunk_loads :
  loads many_load blocked_chunk_fs many_items many_artists.
Proof.
  destruct many_loads as (text & Hin & Hrest). exists text. split; [|exact Hrest].
  unfold blocked_chunk_fs. rewrite lookup_insert_ne; [exact Hin|].
  apply output_file_ne_input.
Qed.

Lemma blocked_chunk_no_file p :
  p ∈ path_prefixes OUTPUT_DIR -> not_file blocked_chunk_fs p.
Proof.
  intros Hp c. unfold blocked_chunk_fs. rewrite lookup_insert_ne.
  - by apply disk_with_no_file.
  - intros <-. by apply (output_file_not_prefix 1).
Qed.

Lemma blocked_chunk_turns : (1 < turns (len many_artists))%nat.
Proof. rewrite many_artists_len. vm_compute. lia. Qed.

Lemma blocked_chunk_second :
  blocked_chunk_fs !! output_file (Z.of_nat 1) = Some Dir.
Proof. apply lookup_insert_eq. Qed.

Lemma blocked_chunk_first_free (j : nat) :
  (j < 1)%nat -> not_dir blocked_chunk_fs (output_file (Z.of_nat j)).
Proof.
  intros Hj. destruct j as [|j]; [|lia]. unfold not_dir, blocked_chunk_fs.
  rewrite lookup_insert_ne by (apply output_file_distinct; lia).
  apply (disk_with_unobstructed "many").
Qed.

(** X11 on the document with 6,000,001 artists, with a directory where
    the second chunk file goes: the first chunk is written and stays. *)
Lemma blocked_chunk_keeps_earlier_witness :
  loads many_load blocked_chunk_fs many_items many_artists /\
  (forall p, p ∈ path_prefixes OUTPUT_DIR -> not_file blocked_chunk_fs p) /\
  (1 < turns (len many_artists))%nat /\
  blocked_chunk_fs !! output_file (Z.of_nat 1) = Some Dir /\
  (forall j, (j < 1)%nat -> not_dir blocked_chunk_fs (output_file (Z.of_nat j))) /\
  res (main many_load sample_dump blocked_chunk_fs) = Raise IsADirectoryError /\
  dumped (trace (main many_load sample_dump blocked_chunk_fs)) =
    chunks_of many_items many_artists 1 /\
  forall j, (j < 1)%nat ->
    disk (main many_load sample_dump blocked_chunk_fs)
      !! output_file (Z.of_nat j) =
    Some (File (sample_dump
                  (PDict (nth_chunk (metadata_of many_items) many_artists j)) 2)).
Proof.
  split; [exact blocked_chunk_loads|]. split; [exact blocked_chunk_no_file|].
  split; [exact blocked_chunk_turns|]. split; [exact blocked_chunk_second|].
  split; [exact blocked_chunk_first_free|].
  exact (blocked_chunk_keeps_earlier many_load sample_dump blocked_chunk_fs
           many_items many_artists 1 blocked_chunk_loads
           blocked_chunk_no_file blocked_chunk_turns blocked_chunk_second
           blocked_chunk_first_free).
Defined.

(** ** What the run reports *)

Lemma progress_of_app t1 t2 :
  progress_of (t1 ++ t2) = progress_of t1 ++ progress_of t2.
Proof. apply omap_app. Qed.

Lemma progress_of_turns metadata artist_items (js : list nat) :
  progress_of (concat (turn_events metadata artist_items <$> js)) =
  progress_at artist_items <$> js.
Proof.
  induction js as [|j js IH]; [done|].
  rewrite !fmap_cons. cbn [concat]. rewrite progress_of_app, IH. done.
Qed.

Lemma progress_of_run_events d artists n k m :
  progress_of (prologue_events n ++
               concat (turn_events (metadata_of d) artists <$> seq 0 m) ++
               epilogue_events k n) =
  progress_at artists <$> seq 0 m.
Proof.
  rewrite !progress_of_app, progress_of_turns.
  change (progress_of (prologue_events n)) with (@nil Q).
  change (progress_of (epilogue_events k n)) with (@nil Q).
  by rewrite app_nil_r.
Qed.

Lemma turns_count (n : Z) :
  0 <= n -> (n + CHUNK_SIZE - 1) / CHUNK_SIZE = Z.of_nat (turns n).
Proof.
  intros Hn. unfold turns. rewrite Z2Nat.id; [done|].
  apply Z.div_pos; unfold CHUNK_SIZE; lia.
Qed.

Lemma sum_len_concat {A} (ls : list (list A)) :
  foldr Z.add 0 (len <$> ls) = len (concat ls).
Proof.
  induction ls as [|l ls IH]; [done|].
  rewrite fmap_cons. cbn [foldr concat]. rewrite IH.
  unfold len. rewrite length_app. lia.
Qed.

Section Reports.

Variable json_load : string -> option pyval.
Variable json_dump : pyval -> Z -> string.

Local Abbreviation script := (main json_load json_dump).

(** X12. On a valid input with nothing in the way, the number of chunks
    the run announces before the loop and the number it reports after it
    are both the number of chunk files it wrote. *)
Theorem chunk_count_reported fs d artists :
  loads json_load fs d artists -> unobstructed fs ->
  Print (LCreating (len (dumped (trace (script fs))))) ∈ trace (script fs) /\
  Print (LCreated (len (dumped (trace (script fs)))) OUTPUT_DIR)
    ∈ trace (script fs).
Proof.
  intros Hload Hfree. rewrite (main_runs _ _ _ _ _ Hload Hfree).
  cbn [trace]. rewrite dumped_run_events.
  assert (len (chunks_of d artists (turns (len artists))) =
          Z.of_nat (turns (len artists))) as ->
    by (unfold len at 1; by rewrite length_chunks_of).
  split.
  - apply elem_of_app. left. unfold prologue_events.
    rewrite (turns_count _ (len_nonneg _)). rewrite !elem_of_cons. auto 10.
  - apply elem_of_app. right. apply elem_of_app. right.
    unfold epilogue_events. rewrite !elem_of_cons. auto.
Qed.

(** X13. On a valid input with at least one artist and nothing in the
    way, the last progress figure the run prints is 100 (per cent), the
    quotient being taken exactly. *)
Theorem last_progress_is_100 fs d artists :
  loads json_load fs d artists -> is_dict artists -> unobstructed fs ->
  artists <> [] ->
  exists q, last (progress_of (trace (script fs))) = Some q /\ Qeq q (inject_Z 100).
Proof.
  intros Hload Hdict Hfree Hne. rewrite (main_runs _ _ _ _ _ Hload Hfree).
  cbn [trace]. rewrite progress_of_run_events.
  pose proof (turns_bounds (len artists) (len_nonneg _)) as Hb.
  assert (0 < len artists) as Hpos.
  { unfold len. destruct artists; [done|]. simpl. lia. }
  destruct (turns (len artists)) as [|m] eqn:Em.
  { unfold CHUNK_SIZE in Hb. lia. }
  rewrite seq_S, fmap_app. change (progress_at artists <$> [(0 + m)%nat])
    with [progress_at artists m]. rewrite last_snoc.
  eexists. split; [done|]. unfold progress_at. cbv zeta.
  rewrite dict_of_items_NoDup by (by apply NoDup_keys_slice).
  rewrite slice_chunk, len_window.
  replace (Z.of_nat m * CHUNK_SIZE +
           Z.max 0 (Z.min CHUNK_SIZE (len artists - Z.of_nat m * CHUNK_SIZE)))
    with (len artists) by (unfold CHUNK_SIZE in *; lia).
  unfold Qdiv. rewrite Qmult_inv_r; [apply Qmult_1_l|].
  intros Hz. unfold Qeq in Hz. simpl in Hz. lia.
Qed.

(** X14. On an input that loads to a dict with none of the keys
    ['chunk_index'], ['chunk_artist_count'] and ['total_artist_count'],
    every chunk a run writes is laid out as the top-level entries of the
    input other than ['artists'], in the order of the input, followed by
    ['chunk_index'], ['chunk_artist_count'], ['total_artist_count'] and
    ['artists'], in this order. *)
Theorem chunk_layout fs d artists :
  loads json_load fs d artists -> is_dict d ->
  (forall k, k ∈ ["chunk_index"; "chunk_artist_count"; "total_artist_count"] ->
             k ∉ d.*1) ->
  forall obj, obj ∈ (dumped (trace (script fs))).*2 ->
    exists (index : Z) (chunk_artists : dict),
      obj = PDict (filter (fun kv => kv.1 <> "artists") d ++
                   [("chunk_index", PInt index);
                    ("chunk_artist_count", PInt (len chunk_artists));
                    ("total_artist_count", PInt (len artists));
                    ("artists", PDict chunk_artists)]).
Proof.
  intros Hload Hdict Hclash obj Hobj.
  destruct (main_dumps json_load json_dump fs d artists Hload)
    as (m' & _ & Hd & _).
  rewrite Hd, chunks_of_objs in Hobj.
  apply list_elem_of_fmap in Hobj as (j & -> & _).
  unfold nth_chunk, chunk_data, dict_display, metadata_of. cbv zeta.
  rewrite (dict_of_items_NoDup (filter _ d)) by (by apply NoDup_keys_filter).
  eexists _, _. f_equal. apply fold_dict_set_fresh.
  apply NoDup_app. split; [by apply NoDup_keys_filter|]. split.
  - intros k Hk Hk'. simpl in Hk'.
    apply list_elem_of_fmap in Hk as ([k0 v] & -> & Hin).
    apply list_elem_of_filter in Hin as [Hart Hin]. simpl in *.
    assert (k0 ∈ d.*1) as Hkd.
    { apply list_elem_of_fmap. by exists (k0, v). }
    rewrite !elem_of_cons in Hk'.
    destruct Hk' as [->|[->|[->|[->|Hnil]]]];
      [eapply Hclash; [|exact Hkd]; rewrite !elem_of_cons; auto..|done|].
    by apply elem_of_nil in Hnil.
  - simpl. apply (bool_decide_unpack _). by vm_compute.
Qed.

(** X15. On a valid input with nothing in the way, the
    ['chunk_artist_count'] fields of the chunks written add up to the
    number of artists of the input. *)
Theorem chunk_counts_add_up fs d artists :
  loads json_load fs d artists -> is_dict artists -> unobstructed fs ->
  foldr Z.add 0 (count_of <$> (dumped (trace (script fs))).*2) = len artists.
Proof.
  intros Hload Hdict Hfree. rewrite (main_runs _ _ _ _ _ Hload Hfree).
  cbn [trace]. rewrite dumped_run_events, chunks_of_objs.
  rewrite <- list_fmap_compose.
  erewrite list_fmap_ext; cycle 1.
  { intros i j _. simpl. unfold count_of, nth_chunk.
    rewrite field_chunk_artist_count.
    rewrite dict_of_items_NoDup by (by apply NoDup_keys_slice).
    rewrite slice_chunk. reflexivity. }
  rewrite (list_fmap_compose
             (fun j => take (Z.to_nat CHUNK_SIZE) (drop (j * Z.to_nat CHUNK_SIZE) artists))
             len).
  rewrite sum_len_concat, concat_windows_all; [done|].
  pose proof (turns_bounds (len artists) (len_nonneg _)) as Hb.
  unfold len, CHUNK_SIZE in *. lia.
Qed.

End Reports.

Lemma chunk_count_reported_witness :
  loads sample_load sample_fs sample_items sample_artists /\
  unobstructed sample_fs /\
  Print (LCreating (len (dumped (trace (main sample_load sample_dump sample_fs)))))
    ∈ trace (main sample_load sample_dump sample_fs) /\
  Print (LCreated (len (dumped (trace (main sample_load sample_dump sample_fs))))
           OUTPUT_DIR)
    ∈ trace (main sample_load sample_dump sample_fs).
Proof.
  split; [apply sample_loads|]. split; [apply disk_with_unobstructed|].
  apply (chunk_count_reported sample_load sample_dump sample_fs
           sample_items sample_artists).
  - apply sample_loads.
  - apply disk_with_unobstructed.
Defined.

Lemma last_progress_is_100_witness :
  loads sample_load sample_fs sample_items sample_artists /\
  is_dict sample_artists /\
  unobstructed sample_fs /\
  sample_artists <> [] /\
  exists q,
    last (progress_of (trace (main sample_load sample_dump sample_fs))) = Some q /\
    Qeq q (inject_Z 100).
Proof.
  split; [apply sample_loads|]. split; [apply sample_artists_dict|].
  split; [apply disk_with_unobstructed|]. split; [discriminate|].
  apply (last_progress_is_100 sample_load sample_dump sample_fs
           sample_items sample_artists).
  - apply sample_loads.
  - apply sample_artists_dict.
  - apply disk_with_unobstructed.
  - discriminate.
Defined.

Lemma sample_no_clash k :
  k ∈ ["chunk_index"; "chunk_artist_count"; "total_artist_count"] ->
  k ∉ sample_items.*1.
Proof.
  rewrite !elem_of_cons. intros [->|[->|[->|Hnil]]];
    [simpl; rewrite !not_elem_of_cons; split_and!; try discriminate;
     apply not_elem_of_nil..|].
  by apply elem_of_nil in Hnil.
Qed.

Lemma chunk_layout_witness :
  loads sample_load sample_fs sample_items sample_artists /\
  is_dict sample_items /\
  (forall k, k ∈ ["chunk_index"; "chunk_artist_count"; "total_artist_count"] ->
             k ∉ sample_items.*1) /\
  forall obj,
    obj ∈ (dumped (trace (main sample_load sample_dump sample_fs))).*2 ->
    exists (index : Z) (chunk_artists : dict),
      obj = PDict (filter (fun kv => kv.1 <> "artists") sample_items ++
                   [("chunk_index", PInt index);
                    ("chunk_artist_count", PInt (len chunk_artists));
                    ("total_artist_count", PInt (len sample_artists));
                    ("artists", PDict chunk_artists)]).
Proof.
  split; [apply sample_loads|]. split; [apply sample_items_dict|].
  split; [apply sample_no_clash|].
  apply (chunk_layout sample_load sample_dump sample_fs
           sample_items sample_artists).
  - apply sample_loads.
  - apply sample_items_dict.
  - apply sample_no_clash.
Defined.

Lemma chunk_counts_add_up_witness :
  loads sample_load sample_fs sample_items sample_artists /\
  is_dict sample_artists /\
  unobstructed sample_fs /\
  foldr Z.add 0
    (count_of <$> (dumped (trace (main sample_load sample_dump sample_fs))).*2) =
  len sample_artists.
Proof.
  split; [apply sample_loads|]. split; [apply sample_artists_dict|].
  split; [apply disk_with_unobstructed|].
  apply (chunk_counts_add_up sample_load sample_dump sample_fs
           sample_items sample_artists).
  - apply sample_loads.
  - apply sample_artists_dict.
  - apply disk_with_unobstructed.
Defined.
